(** * JSONPROMPTEE backend: the extraction, validation and policy pipeline

    A shallow embedding of [backend/server.js] and the properties its
    specification states about it.

    Definitions:
    - [JS]        : the JavaScript values the handler manipulates
                    (strings as sequences of UTF-16 code units, JSON values,
                    property reads, truthiness).
    - [Scanner]   : [extractJSON], the balanced-brace scanner, and the
                    specification's notion of a balanced object.
    - [Sanitizer] : [sanitizeInput].
    - [Schema]    : [jsonSchema] and the validator compiled from it.
    - [Pipeline]  : the [/api/convert] handler as a program over one
                    effect, the call to the model provider.
    - [Scenario]  : the concrete request and provider answer of the
                    specification's end-to-end scenario.
    - [ImageSpec] : the shape [jsonSchema] describes, field by field, and
                    the named outcomes of the handler.

    Properties: [ScannerFacts], [SanitizerFacts], [SchemaFacts],
    [PipelineFacts]. *)

From Stdlib Require Import ZArith NArith String Ascii.
From Stdlib Require Import Floats.SpecFloat.
From stdpp Require Import base tactics option list.

Local Open Scope Z_scope.

(* ===================================================================== *)
(** * JavaScript values *)
(* ===================================================================== *)

Module JS.

(** A JavaScript string is a sequence of 16-bit code units. *)
Definition code_unit := N.
Definition jsstring := list code_unit.

Definition LBRACE : code_unit := 123%N.
Definition RBRACE : code_unit := 125%N.
Definition QUOTE : code_unit := 34%N.
Definition BACKSLASH : code_unit := 92%N.

(** Literals.  [str] reads an ASCII literal as it stands.  [qstr] does the
    same but reads an apostrophe as a double quote, so that JSON texts can be
    written in one piece: [qstr "{'a':1}"] is the text [{"a":1}]. *)
Definition str (s : string) : jsstring :=
  map N_of_ascii (list_ascii_of_string s).

Definition qstr (s : string) : jsstring :=
  map (fun c => if N.eqb c 39 then QUOTE else c) (str s).

(** Values: what [JSON.parse] produces, plus [undefined].  Numbers are IEEE
    doubles.  An object keeps its properties in insertion order. *)
#[warnings="-register-all"]
Inductive value : Type :=
| VUndefined
| VNull
| VBool (b : bool)
| VNumber (x : spec_float)
| VString (s : jsstring)
| VArray (elems : list value)
| VObject (fields : list (jsstring * value)).

Inductive jstypeof := TyUndefined | TyObject | TyBoolean | TyNumber | TyString.

Definition typeof (v : value) : jstypeof :=
  match v with
  | VUndefined => TyUndefined
  | VNull | VArray _ | VObject _ => TyObject
  | VBool _ => TyBoolean
  | VNumber _ => TyNumber
  | VString _ => TyString
  end.

Definition jstypeof_eqb (a b : jstypeof) : bool :=
  match a, b with
  | TyUndefined, TyUndefined | TyObject, TyObject | TyBoolean, TyBoolean
  | TyNumber, TyNumber | TyString, TyString => true
  | _, _ => false
  end.

(** ToBoolean. *)
Definition truthy (v : value) : bool :=
  match v with
  | VUndefined | VNull => false
  | VBool b => b
  | VNumber (S754_zero _) | VNumber S754_nan => false
  | VNumber _ => true
  | VString s => match s with [] => false | _ => true end
  | VArray _ | VObject _ => true
  end.

(** [a || b] *)
Definition js_or (a b : value) : value := if truthy a then a else b.

Definition nullish (v : value) : bool :=
  match v with VUndefined | VNull => true | _ => false end.

(** Own-property lookup in an object's property list. *)
Fixpoint lookup_field (k : jsstring) (fs : list (jsstring * value)) : option value :=
  match fs with
  | [] => None
  | (k', v) :: fs' => if decide (k' = k) then Some v else lookup_field k fs'
  end.

(** [fs[k] = v] on an object's property list: an existing property keeps its
    place, a new one goes last. *)
Fixpoint assign_field (k : jsstring) (v : value) (fs : list (jsstring * value))
  : list (jsstring * value) :=
  match fs with
  | [] => [(k, v)]
  | (k', v') :: fs' =>
      if decide (k' = k) then (k, v) :: fs' else (k', v') :: assign_field k v fs'
  end.

(** [v.k] for a property name [k] that no built-in prototype defines and that
    is not an index.  Every name the handler and the schema read is of this
    kind (prompt, engine, params, choices, message, content, text, details,
    subject, ...).  [None] is the TypeError of reading a property of
    [undefined] or [null]. *)
Definition get (v : value) (k : jsstring) : option value :=
  match v with
  | VUndefined | VNull => None
  | VObject fs => Some (default VUndefined (lookup_field k fs))
  | _ => Some VUndefined
  end.

(** [v[0]] *)
Definition get0 (v : value) : option value :=
  match v with
  | VUndefined | VNull => None
  | VObject fs => Some (default VUndefined (lookup_field (str "0") fs))
  | VArray l => Some (default VUndefined (head l))
  | VString s => Some (match s with [] => VUndefined | c :: _ => VString [c] end)
  | _ => Some VUndefined
  end.

(** [v?.k] and [v?.[0]] inside a chain whose every link is optional: a
    nullish base makes the whole chain [undefined]. *)
Definition opt_get (v : value) (k : jsstring) : value :=
  default VUndefined (get v k).

Definition opt_get0 (v : value) : value :=
  default VUndefined (get0 v).

(** [text.slice(s, e)] for indices [0 <= s] and [0 <= e]. *)
Definition slice {A} (s e : nat) (l : list A) : list A := drop s (take e l).

End JS.

(* ===================================================================== *)
(** * The extraction scanner *)
(* ===================================================================== *)

Module Scanner.
Import JS.

Section Scan.

(** [extractJSON] only uses [indexOf], [length], indexing, [slice] and
    [===] against one-character strings, which strings and arrays both
    offer.  The text is therefore a list over any element type [A];
    [unit_of x] is the code unit [c] for which [x === String.fromCharCode(c)],
    if there is one.  For a string, [A] is [code_unit] and [unit_of] is
    [Some]. *)
Context {A : Type} (unit_of : A -> option code_unit).

(** [x === c] for a one-character string [c]. *)
Definition is_unit (x : A) (c : code_unit) : bool :=
  match unit_of x with Some c' => N.eqb c' c | None => false end.

(** The same for a possibly [undefined] element ([text[-1]]). *)
Definition is_opt (o : option A) (c : code_unit) : bool :=
  match o with Some x => is_unit x c | None => false end.

(** [text.indexOf(c)]; [None] stands for [-1]. *)
Fixpoint indexOf (c : code_unit) (text : list A) : option nat :=
  match text with
  | [] => None
  | x :: text' => if is_unit x c then Some O else S <$> indexOf c text'
  end.

(** [text[i-1]] *)
Definition before (text : list A) (i : nat) : option A :=
  match i with O => None | S j => text !! j end.

Record scan_state := { depth : Z; inString : bool }.

(** One pass through the loop body, up to the test [depth === 0]. *)
Definition scan_step (prev : option A) (ch : A) (st : scan_state) : scan_state :=
  let inString' :=
    if is_unit ch QUOTE && negb (is_opt prev BACKSLASH)
    then negb (inString st) else inString st in
  if negb inString' then
    let depth' :=
      if is_unit ch LBRACE then depth st + 1
      else if is_unit ch RBRACE then depth st - 1
      else depth st in
    {| depth := depth'; inString := inString' |}
  else {| depth := depth st; inString := inString' |}.

(** The guard of the [return] inside the loop. *)
Definition at_end (st : scan_state) : bool :=
  negb (inString st) && (depth st =? 0).

(** The [for] loop from index [i]; [fuel] counts the iterations left, the
    loop condition [i < text.length] fails when [text !! i] is [None]. *)
Fixpoint scan_loop (text : list A) (start : nat) (fuel i : nat) (st : scan_state)
  : option (list A) :=
  match fuel with
  | O => None
  | S fuel' =>
      match text !! i with
      | None => None
      | Some ch =>
          let st' := scan_step (before text i) ch st in
          if at_end st' then Some (slice start (S i) text)
          else scan_loop text start fuel' (S i) st'
      end
  end.

Definition extractJSON (text : list A) : option (list A) :=
  match indexOf LBRACE text with
  | None => None
  | Some start =>
      scan_loop text start (length text - start) start
                {| depth := 0; inString := false |}
  end.

(** ** The loop as a traversal

    The same loop with a cursor instead of an index: [rest] is
    [text.slice(i)], [prev] is [text[i-1]], and the result counts the
    elements read up to and including the one at which the loop returns.
    [scan_loop_cursor] below relates the two. *)
Fixpoint scan_list (prev : option A) (rest : list A) (st : scan_state)
  : option nat :=
  match rest with
  | [] => None
  | ch :: rest' =>
      let st' := scan_step prev ch st in
      if at_end st' then Some 1%nat
      else S <$> scan_list (Some ch) rest' st'
  end.

(** The variables after [n] passes through the loop body started on [rest],
    had no pass returned. *)
Fixpoint run_steps (prev : option A) (rest : list A) (st : scan_state) (n : nat)
  {struct n} : scan_state :=
  match n, rest with
  | S n', ch :: rest' => run_steps (Some ch) rest' (scan_step prev ch st) n'
  | _, _ => st
  end.

Definition initial_state : scan_state := {| depth := 0; inString := false |}.

(** [depth] and [inString] on entry to iteration [i] of a scan that began at
    [start]; [entry_state text start (S i)] is their value at the test
    [depth === 0] of iteration [i]. *)
Definition entry_state (text : list A) (start i : nat) : scan_state :=
  run_steps (before text start) (drop start text) initial_state (i - start).

(** ** Balanced objects, as the specification defines them

    "Balanced object: a JSON object substring whose brace nesting depth
    returns to zero, with string-literal contents excluded from depth
    counting."  String literals are read as JSON defines them: a literal
    opens at a quote and closes at the next quote that is not escaped, and a
    backslash inside a literal escapes the one character after it, whatever
    that character is. *)
Inductive lex_mode := Outside | InStr | Escaped.

Definition lex_step (m : lex_mode) (ch : A) : lex_mode :=
  match m with
  | Outside => if is_unit ch QUOTE then InStr else Outside
  | InStr =>
      if is_unit ch QUOTE then Outside
      else if is_unit ch BACKSLASH then Escaped
      else InStr
  | Escaped => InStr
  end.

Definition is_outside (m : lex_mode) : bool :=
  match m with Outside => true | _ => false end.

(** Number of elements up to and including the one at which the depth,
    counted outside string literals only, first returns to zero. *)
Fixpoint object_end (m : lex_mode) (d : Z) (rest : list A) : option nat :=
  match rest with
  | [] => None
  | ch :: rest' =>
      let m' := lex_step m ch in
      let d' :=
        if is_outside m && is_outside m' then
          if is_unit ch LBRACE then d + 1
          else if is_unit ch RBRACE then d - 1
          else d
        else d in
      if is_outside m' && (d' =? 0) then Some 1%nat
      else S <$> object_end m' d' rest'
  end.

(** JSON has no backslash outside string literals. *)
Fixpoint backslash_only_in_strings (m : lex_mode) (rest : list A) : bool :=
  match rest with
  | [] => true
  | ch :: rest' =>
      negb (is_outside m && is_unit ch BACKSLASH)
      && backslash_only_in_strings (lex_step m ch) rest'
  end.

(** [obj] opens with a brace, and its depth returns to zero at its last
    element and not before.  The text of every JSON object is balanced in
    this sense. *)
Definition balanced_object (obj : list A) : bool :=
  is_opt (head obj) LBRACE
  && backslash_only_in_strings Outside obj
  && bool_decide (object_end Outside 0 obj = Some (length obj)).

(** No string literal of [rest] closes right after a backslash, that is, no
    literal ends in an escaped backslash. *)
Fixpoint no_backslash_before_closing_quote
  (m : lex_mode) (prev : option A) (rest : list A) : bool :=
  match rest with
  | [] => true
  | ch :: rest' =>
      negb (match m with
            | InStr => is_unit ch QUOTE && is_opt prev BACKSLASH
            | _ => false
            end)
      && no_backslash_before_closing_quote (lex_step m ch) (Some ch) rest'
  end.

Definition has_no (c : code_unit) (l : list A) : bool :=
  forallb (fun x => negb (is_unit x c)) l.

Definition brace_free (l : list A) : bool :=
  has_no LBRACE l && has_no RBRACE l.

(** Some piece of the text is a balanced object. *)
Definition has_balanced_object (text : list A) : bool :=
  existsb (fun i =>
             existsb (fun n => balanced_object (take n (drop i text)))
                     (seq 0 (S (length text - i))))
          (seq 0 (length text)).

(** ** The four characters the scanner tells apart

    An element is at most one of them. *)
Inductive char_kind (x : A) : Prop :=
| KQuote : is_unit x QUOTE = true -> is_unit x BACKSLASH = false ->
           is_unit x LBRACE = false -> is_unit x RBRACE = false -> char_kind x
| KBackslash : is_unit x QUOTE = false -> is_unit x BACKSLASH = true ->
           is_unit x LBRACE = false -> is_unit x RBRACE = false -> char_kind x
| KLBrace : is_unit x QUOTE = false -> is_unit x BACKSLASH = false ->
           is_unit x LBRACE = true -> is_unit x RBRACE = false -> char_kind x
| KRBrace : is_unit x QUOTE = false -> is_unit x BACKSLASH = false ->
           is_unit x LBRACE = false -> is_unit x RBRACE = true -> char_kind x
| KOther : is_unit x QUOTE = false -> is_unit x BACKSLASH = false ->
           is_unit x LBRACE = false -> is_unit x RBRACE = false -> char_kind x.

(** How the scanner's [inString] and the element before the cursor relate
    to the place of the cursor in JSON's reading of the text. *)
Definition agree (m : lex_mode) (s : bool) (prev : option A) : Prop :=
  s = negb (is_outside m)
  /\ (m = Escaped -> is_opt prev BACKSLASH = true)
  /\ (m = Outside -> is_opt prev BACKSLASH = false).

End Scan.

(** The scanner on a string. *)
Definition extractJSON_string (text : jsstring) : option jsstring :=
  extractJSON Some text.

End Scanner.

(* ===================================================================== *)
(** * The input sanitizer *)
(* ===================================================================== *)

Module Sanitizer.
Import JS.

(** The code points [String.prototype.trim] strips: WhiteSpace (TAB, VT,
    FF, ZWNBSP and the space separators) and LineTerminator. *)
Definition is_whitespace (c : code_unit) : bool :=
  ((9 <=? c) && (c <=? 13) || (c =? 32) || (c =? 160) || (c =? 5760)
   || (8192 <=? c) && (c <=? 8202) || (c =? 8232) || (c =? 8233)
   || (c =? 8239) || (c =? 8287) || (c =? 12288) || (c =? 65279))%N.

Fixpoint trimStart (s : jsstring) : jsstring :=
  match s with
  | c :: s' => if is_whitespace c then trimStart s' else s
  | [] => []
  end.

Definition trimEnd (s : jsstring) : jsstring := rev (trimStart (rev s)).

Definition trim (s : jsstring) : jsstring := trimEnd (trimStart s).

Definition sanitizeInput (text : value) : jsstring :=
  if negb (truthy text) || negb (jstypeof_eqb (typeof text) TyString) then []
  else
    match text with
    | VString s => let trimmed := slice 0 800 (trim s) in trimmed
    | _ => []
    end.

Definition all_whitespace (s : jsstring) : Prop :=
  forallb is_whitespace s = true.

(** The first code unit of [s], if any, is no whitespace. *)
Definition starts_clean (s : jsstring) : Prop :=
  match s with c :: _ => is_whitespace c = false | [] => True end.

End Sanitizer.

(* ===================================================================== *)
(** * The output schema and its validator *)
(* ===================================================================== *)

Module Schema.
Import JS.

(** The part of JSON Schema that [jsonSchema] uses: [type], [properties]
    and [required]. *)
Inductive jstype := TObject | TString | TNumber | TNull.

#[warnings="-register-all"]
Inductive schema : Type :=
| Sch (type : list jstype) (properties : list (jsstring * schema))
      (required : list jsstring).

Definition string_schema : schema := Sch [TString] [] [].
Definition number_schema : schema := Sch [TNumber] [] [].

Definition details_schema : schema :=
  Sch [TObject]
      [ (str "subject", string_schema);
        (str "background", string_schema);
        (str "mood", string_schema);
        (str "colors", string_schema) ]
      [ str "subject" ].

Definition params_schema : schema :=
  Sch [TObject]
      [ (str "engine", string_schema);
        (str "resolution", string_schema);
        (str "cfg_scale", number_schema);
        (str "steps", number_schema);
        (str "sampler", string_schema);
        (str "seed", Sch [TNumber; TNull] [] []) ]
      [].

Definition jsonSchema : schema :=
  Sch [TObject]
      [ (str "prompt", string_schema);
        (str "negative_prompt", string_schema);
        (str "style", string_schema);
        (str "lighting", string_schema);
        (str "camera", string_schema);
        (str "details", details_schema);
        (str "params", params_schema) ]
      [ str "prompt"; str "params" ].

(** What the validator reports: where in the data, and what is wrong
    there. *)
Inductive violation :=
| MissingProperty (path : list jsstring) (name : jsstring)
| WrongType (path : list jsstring) (expected : list jstype).

(** The validator that [ajv.compile] builds, with the options of
    [new Ajv()]: it stops at the first violation; [type] is checked first
    and the other keywords only if it holds; [required] and [properties]
    constrain objects only, [required] before [properties]; a property
    counts as present when reading it does not give [undefined]; a number
    must be finite. *)
Definition is_object (v : value) : bool :=
  match v with VObject _ => true | _ => false end.

Definition has_type (v : value) (t : jstype) : bool :=
  match t, v with
  | TObject, VObject _ => true
  | TString, VString _ => true
  | TNumber, VNumber (S754_zero _) => true
  | TNumber, VNumber (S754_finite _ _ _) => true
  | TNull, VNull => true
  | _, _ => false
  end.

Definition present (data : value) (k : jsstring) : bool :=
  match opt_get data k with VUndefined => false | _ => true end.

Definition first_missing (required : list jsstring) (data : value)
  : option jsstring :=
  find (fun k => negb (present data k)) required.

(** The [properties] keyword: each listed property that is present must
    satisfy its schema. *)
Definition each_property
  (check : schema -> list jsstring -> value -> option violation)
  (path : list jsstring) (data : value)
  : list (jsstring * schema) -> option violation :=
  fix each ps :=
    match ps with
    | [] => None
    | (k, sub) :: ps' =>
        if present data k then
          match check sub (path ++ [k]) (opt_get data k) with
          | Some e => Some e
          | None => each ps'
          end
        else each ps'
    end.

Fixpoint validate (s : schema) (path : list jsstring) (data : value)
  : option violation :=
  match s with
  | Sch type properties required =>
      if negb (existsb (has_type data) type) then Some (WrongType path type)
      else if is_object data then
        match first_missing required data with
        | Some k => Some (MissingProperty path k)
        | None => each_property validate path data properties
        end
      else None
  end.

(** [validateJSON(data)] is [true] when [validateJSON_errors data] is
    [None]; otherwise [validateJSON.errors] holds the one violation. *)
Definition validateJSON_errors (data : value) : option violation :=
  validate jsonSchema [] data.

Definition validateJSON (data : value) : bool :=
  match validateJSON_errors data with None => true | Some _ => false end.

End Schema.

(* ===================================================================== *)
(** * The [/api/convert] handler *)
(* ===================================================================== *)

Module Pipeline.
Import JS Scanner Sanitizer Schema.

(** ** The provider call, the one effect of the handler *)

Record message := { role : jsstring; content : jsstring }.

(** The arguments of [fetch]; [body] is the object handed to
    [JSON.stringify]. *)
Record fetch_request := {
  url : jsstring;
  method : jsstring;
  content_type : jsstring;
  authorization : jsstring;
  model : jsstring;
  messages : list message;
  temperature : Z;
  max_tokens : Z
}.

(** What comes back: the promise rejects, or it yields a response with its
    [ok] flag and what [text()] and [json()] resolve to ([None] when they
    reject). *)
Inductive fetch_result :=
| Rejected
| Response (ok : bool) (text : option jsstring) (json : option value).

(** A handler run is a tree: it ends with a result, or it calls the
    provider and goes on with the answer. *)
Inductive proc (R : Type) : Type :=
| Ret (r : R)
| Fetch (rq : fetch_request) (k : fetch_result -> proc R).
Arguments Ret {R} r.
Arguments Fetch {R} rq k.

(** Running a handler against a provider gives its result and the calls it
    made, in order. *)
Fixpoint run {R} (provider : fetch_request -> fetch_result) (p : proc R)
  : R * list fetch_request :=
  match p with
  | Ret r => (r, [])
  | Fetch rq k =>
      let (r, calls) := run provider (k (provider rq)) in (r, rq :: calls)
  end.

(** ** Responses *)

Inductive payload :=
| Ok (result : value)                     (* { ok: true, result } *)
| Error (error : jsstring)                (* { error } *)
| ErrorDetail (error detail : jsstring)   (* { error, detail } *)
| ErrorRaw (error : jsstring) (raw : value)             (* { error, raw } *)
| ErrorDetails (error : jsstring) (details : list violation) (raw : value).
                                          (* { error, details, raw } *)

Record response := { status : Z; body : payload }.

(** The [catch] branch. *)
Definition server_error : response :=
  {| status := 500; body := Error (str "Server error") |}.

(** The answer to an empty prompt. *)
Definition empty_prompt : response :=
  {| status := 400; body := Error (str "Empty prompt") |}.

(** ** Process configuration *)

Record env := {
  BACKEND_OPENAI_KEY : option jsstring;
  OPENAI_API_KEY : option jsstring
}.

Definition env_value (o : option jsstring) : value :=
  match o with Some s => VString s | None => VUndefined end.

Definition OPENAI_KEY (e : env) : value :=
  js_or (env_value (BACKEND_OPENAI_KEY e)) (env_value (OPENAI_API_KEY e)).

Definition newline : jsstring := [10%N].

Definition lines (l : list jsstring) : jsstring :=
  concat (map (fun x => x ++ newline) l).

Definition SYSTEM_PROMPT : jsstring :=
  newline ++ lines [
    str "You are a JSON generator. The user gives a natural-language image prompt. ";
    str "Your job: produce ONLY a single valid JSON object (no surrounding markdown, no explanation),";
    str "matching this structure:";
    [];
    str "{";
    qstr "  'prompt': '<concise image generation prompt>',";
    qstr "  'negative_prompt': '<optional>',";
    qstr "  'style': '<style tags>',";
    qstr "  'lighting': '<lighting description>',";
    qstr "  'camera': '<camera description>',";
    qstr "  'details': {";
    qstr "    'subject': '<main subject>',";
    qstr "    'background': '<background>',";
    qstr "    'mood': '<mood>',";
    qstr "    'colors': '<color hints>'";
    str "  },";
    qstr "  'params': {";
    qstr "    'engine': '<stable|mid|dalle>',";
    qstr "    'resolution': 'WIDTHxHEIGHT',";
    qstr "    'cfg_scale': <number>,";
    qstr "    'steps': <number>,";
    qstr "    'sampler': '<sampler name>',";
    qstr "    'seed': null";
    str "  }";
    str "}";
    [];
    str "Rules:";
    str "- MUST output only JSON object, valid and parseable.";
    qstr "- Use concise, comma-separated clauses in 'prompt'.";
    str "- If a field is unknown, set it to an empty string or null.";
    str "- Do NOT include any commentary, explanation, or trailing text."
  ].

Section Handler.

(** Two built-ins of the language are taken as given: [JSON.parse] on a
    string ([None] when it throws) and the conversion of a number to a
    string. *)
Context (JSON_parse : jsstring -> option value).
Context (Number_toString : spec_float -> jsstring).

Fixpoint join (sep : jsstring) (l : list jsstring) : jsstring :=
  match l with
  | [] => []
  | [x] => x
  | x :: l' => x ++ sep ++ join sep l'
  end.

(** ToString, as template literals and [JSON.parse] apply it; [None] is a
    TypeError.  An array is joined, its [null] and [undefined] elements
    counting as empty.  An object is ["[object Object]"], by the inherited
    [toString], unless it has a property [toString] of its own: that one is
    no function (it came out of [JSON.parse]), the inherited [valueOf]
    returns the object, and the conversion throws. *)
Fixpoint ToString (v : value) : option jsstring :=
  match v with
  | VUndefined => Some (str "undefined")
  | VNull => Some (str "null")
  | VBool true => Some (str "true")
  | VBool false => Some (str "false")
  | VNumber x => Some (Number_toString x)
  | VString s => Some s
  | VArray l =>
      join (str ",")
        <$> (fix each (l : list value) : option (list jsstring) :=
               match l with
               | [] => Some []
               | e :: l' =>
                   match (if nullish e then Some [] else ToString e),
                         each l' with
                   | Some s, Some ss => Some (s :: ss)
                   | _, _ => None
                   end
               end) l
  | VObject fs =>
      match lookup_field (str "toString") fs with
      | Some _ => None
      | None => Some (str "[object Object]")
      end
  end.

(** [const userMsg = `...`]; [None] when the conversion of [enginePref]
    throws. *)
Definition userMsg (userPrompt : jsstring) (enginePref : value)
  : option jsstring :=
  match ToString enginePref with
  | None => None
  | Some engine =>
      Some (newline ++ str "User Prompt: " ++ userPrompt ++ newline
            ++ newline
            ++ str "Preferences:" ++ newline
            ++ str "- engine: " ++ engine ++ newline
            ++ str "- goal: Convert to image-generation JSON for pipelines (Stable Diffusion / Midjourney / DALL"
            ++ [183%N] ++ str "E)" ++ newline)
  end.

(** The arguments of the [fetch] call, given the key and the user message
    as strings. *)
Definition provider_request (key : jsstring) (userMsg : jsstring)
  : fetch_request :=
  {| url := str "https://api.openai.com/v1/chat/completions";
     method := str "POST";
     content_type := str "application/json";
     authorization := str "Bearer " ++ key;
     model := str "gpt-4o-mini";
     messages := [ {| role := str "system"; content := SYSTEM_PROMPT |};
                   {| role := str "user"; content := userMsg |} ];
     temperature := 0;
     max_tokens := 500 |}.

(** [req.body.engine || "stable"] *)
Definition enginePref (body : value) : value :=
  js_or (opt_get body (str "engine")) (VString (str "stable")).

(** [data?.choices?.[0]?.message?.content || data?.choices?.[0]?.text] *)
Definition rawText (data : value) : value :=
  let choice := opt_get0 (opt_get data (str "choices")) in
  js_or (opt_get (opt_get choice (str "message")) (str "content"))
        (opt_get choice (str "text")).

(** [extractJSON(rawText)] on whatever the provider sent as content: a
    string, an array (which has [indexOf], [length] and [slice] too), or a
    value without [indexOf], on which the call throws. *)
Definition unit_of_value (v : value) : option code_unit :=
  match v with VString [c] => Some c | _ => None end.

Inductive extracted := Throws | Returns (jsonCandidate : value).

Definition extract (text : value) : extracted :=
  match text with
  | VString s =>
      Returns (match extractJSON Some s with
               | Some c => VString c | None => VNull end)
  | VArray l =>
      Returns (match extractJSON unit_of_value l with
               | Some c => VArray c | None => VNull end)
  | _ => Throws
  end.

(** [outputObj.params.engine = enginePref], in the strict mode of a module:
    [None] is the TypeError of reading [params] of a nullish [outputObj] or
    of assigning to a property of a [params] that is no object.  (An array
    would take the property; the validator lets none through.) *)
Definition enforce (outputObj E : value) : option value :=
  match outputObj with
  | VObject fs =>
      match lookup_field (str "params") fs with
      | Some (VObject ps) =>
          Some (VObject (assign_field (str "params")
                           (VObject (assign_field (str "engine") E ps)) fs))
      | _ => None
      end
  | _ => None
  end.

(** What the handler does with the provider's answer. *)
Definition on_response (enginePref : value) (r : fetch_result) : response :=
  match r with
  | Rejected => server_error
  | Response false None _ => server_error
  | Response false (Some txt) _ =>
      {| status := 502; body := ErrorDetail (str "AI provider error") txt |}
  | Response true _ None => server_error
  | Response true _ (Some data) =>
      let rawText := rawText data in
      if negb (truthy rawText) then
        {| status := 502; body := Error (str "No response from AI provider") |}
      else
        match extract rawText with
        | Throws => server_error
        | Returns jsonCandidate =>
            if negb (truthy jsonCandidate) then
              {| status := 502;
                 body := ErrorRaw (str "AI did not return JSON") rawText |}
            else
              match ToString jsonCandidate ≫= JSON_parse with
              | None =>
                  {| status := 502;
                     body := ErrorRaw (str "AI returned invalid JSON")
                                      jsonCandidate |}
              | Some outputObj =>
                  if negb (validateJSON outputObj) then
                    {| status := 502;
                       body := ErrorDetails
                                 (str "Generated JSON failed validation")
                                 (option_list (validateJSON_errors outputObj))
                                 outputObj |}
                  else
                    match enforce outputObj enginePref with
                    | None => server_error
                    | Some result => {| status := 200; body := Ok result |}
                    end
              end
        end
  end.

(** [app.post("/api/convert", ...)] on a request whose parsed body is
    [body].  Whatever throws inside the [try] is answered by the [catch]
    with [server_error].  Logging is left out. *)
Definition convert (e : env) (body : value) : proc response :=
  match get body (str "prompt") with
  | None => Ret server_error
  | Some userPromptRaw =>
      let enginePref := enginePref body in
      let userPrompt := sanitizeInput userPromptRaw in
      if negb (truthy (VString userPrompt)) then
        Ret {| status := 400; body := Error (str "Empty prompt") |}
      else
        match userMsg userPrompt enginePref with
        | None => Ret server_error
        | Some userMsg =>
            if negb (truthy (OPENAI_KEY e)) then
              Ret {| status := 500;
                     body := Error (str "Server misconfigured: missing OPENAI API key") |}
            else
              match ToString (OPENAI_KEY e) with
              | None => Ret server_error
              | Some key =>
                  Fetch (provider_request key userMsg)
                        (fun r => Ret (on_response enginePref r))
              end
        end
  end.

End Handler.

End Pipeline.

(* ===================================================================== *)
(** * The specification's end-to-end scenario *)
(* ===================================================================== *)

Module Scenario.
Import JS Pipeline.

Definition fox_env : env :=
  {| BACKEND_OPENAI_KEY := None; OPENAI_API_KEY := Some (str "sk-test") |}.

(** A request without [engine]. *)
Definition fox_body : value :=
  VObject [(str "prompt", VString (str "a red fox in snow"))].

Definition fox_candidate : jsstring :=
  qstr "{'prompt':'red fox in snow, realistic','params':{'engine':'dalle','resolution':'512x512','cfg_scale':7,'steps':30,'sampler':'euler','seed':null}}".

Definition fox_text : jsstring :=
  str "Here you go:" ++ newline ++ str "```json" ++ newline
  ++ fox_candidate ++ newline ++ str "```".

Definition fox_parsed (engine : jsstring) : value :=
  VObject [(str "prompt", VString (str "red fox in snow, realistic"));
           (str "params",
             VObject [(str "engine", VString engine);
                      (str "resolution", VString (str "512x512"));
                      (str "cfg_scale", VNumber (S754_finite false 7 0));
                      (str "steps", VNumber (S754_finite false 30 0));
                      (str "sampler", VString (str "euler"));
                      (str "seed", VNull)])].

(** The same with any value as engine. *)
Definition fox_parsed_with (engine : value) : value :=
  VObject [(str "prompt", VString (str "red fox in snow, realistic"));
           (str "params",
             VObject [(str "engine", engine);
                      (str "resolution", VString (str "512x512"));
                      (str "cfg_scale", VNumber (S754_finite false 7 0));
                      (str "steps", VNumber (S754_finite false 30 0));
                      (str "sampler", VString (str "euler"));
                      (str "seed", VNull)])].

Definition bare_candidate : jsstring := qstr "{'prompt':'x','params':{}}".

Definition bare_parsed : value :=
  VObject [(str "prompt", VString (str "x")); (str "params", VObject [])].

(** [JSON.parse] at the two texts of the scenario. *)
Definition parse (s : jsstring) : option value :=
  if decide (s = fox_candidate) then Some (fox_parsed (str "dalle"))
  else if decide (s = bare_candidate) then Some bare_parsed
  else None.

(** The scenario converts no number to a string. *)
Definition number_toString (x : spec_float) : jsstring := [].

Definition completion (content : jsstring) : value :=
  VObject [(str "choices",
             VArray [VObject [(str "message",
                                VObject [(str "role", VString (str "assistant"));
                                         (str "content", VString content)])]])].

Definition fox_provider (rq : fetch_request) : fetch_result :=
  Response true None (Some (completion fox_text)).

(** The call the scenario's request leads to, for an engine preference
    that reads [engine] as a string. *)
Definition fox_user_message (engine : jsstring) : jsstring :=
  newline ++ str "User Prompt: a red fox in snow" ++ newline
  ++ newline
  ++ str "Preferences:" ++ newline
  ++ str "- engine: " ++ engine ++ newline
  ++ str "- goal: Convert to image-generation JSON for pipelines (Stable Diffusion / Midjourney / DALL"
  ++ [183%N] ++ str "E)" ++ newline.

Definition fox_request (key engine : jsstring) : fetch_request :=
  provider_request key (fox_user_message engine).

(** A request whose engine cannot be turned into a string. *)
Definition hostile_body : value :=
  VObject [(str "prompt", VString (str "a fox"));
           (str "engine", VObject [(str "toString", VNumber (S754_finite false 1 0))])].

End Scenario.

(* ===================================================================== *)
(** * The shape the schema describes, and the outcomes of the handler *)
(* ===================================================================== *)

Module ImageSpec.
Import JS Schema Pipeline.

Definition is_string (v : value) : bool :=
  match v with VString _ => true | _ => false end.

Definition is_finite_number (v : value) : bool :=
  match v with
  | VNumber (S754_zero _) | VNumber (S754_finite _ _ _) => true
  | _ => false
  end.

Definition is_null (v : value) : bool :=
  match v with VNull => true | _ => false end.

(** A property that may be absent. *)
Definition optional (P : value -> bool) (v : value) : bool :=
  match v with VUndefined => true | _ => P v end.

(** [jsonSchema], read field by field. *)
Definition conforms_details (d : value) : bool :=
  is_object d
  && is_string (opt_get d (str "subject"))
  && optional is_string (opt_get d (str "background"))
  && optional is_string (opt_get d (str "mood"))
  && optional is_string (opt_get d (str "colors")).

Definition conforms_params (p : value) : bool :=
  is_object p
  && optional is_string (opt_get p (str "engine"))
  && optional is_string (opt_get p (str "resolution"))
  && optional is_finite_number (opt_get p (str "cfg_scale"))
  && optional is_finite_number (opt_get p (str "steps"))
  && optional is_string (opt_get p (str "sampler"))
  && optional (fun v => is_finite_number v || is_null v)
              (opt_get p (str "seed")).

Definition conforms (o : value) : bool :=
  is_object o
  && is_string (opt_get o (str "prompt"))
  && optional is_string (opt_get o (str "negative_prompt"))
  && optional is_string (opt_get o (str "style"))
  && optional is_string (opt_get o (str "lighting"))
  && optional is_string (opt_get o (str "camera"))
  && optional conforms_details (opt_get o (str "details"))
  && conforms_params (opt_get o (str "params")).

(** The names [jsonSchema] knows at the top of an object. *)
Definition top_level_names : list jsstring :=
  [ str "prompt"; str "negative_prompt"; str "style"; str "lighting";
    str "camera"; str "details"; str "params" ].

(** A validation that found nothing. *)
Definition passes (r : option violation) : bool :=
  match r with None => true | Some _ => false end.

(** The provider key in use: [BACKEND_OPENAI_KEY] unless it is unset or
    empty, then [OPENAI_API_KEY] unless that is unset or empty. *)
Definition effective_key (e : env) : option jsstring :=
  match BACKEND_OPENAI_KEY e with
  | Some (c :: k) => Some (c :: k)
  | _ =>
      match OPENAI_API_KEY e with
      | Some (c :: k) => Some (c :: k)
      | _ => None
      end
  end.

Definition misconfigured : response :=
  {| status := 500;
     body := Error (str "Server misconfigured: missing OPENAI API key") |}.

Definition no_json (raw : value) : response :=
  {| status := 502; body := ErrorRaw (str "AI did not return JSON") raw |}.

Definition is_ok (b : payload) : bool :=
  match b with Ok _ => true | _ => false end.

End ImageSpec.

(* ===================================================================== *)
(** * Properties of the extraction scanner *)
(* ===================================================================== *)

Module ScannerFacts.
Import JS Scanner.

Local Open Scope nat_scope.

Section Facts.

Context {A : Type} (unit_of : A -> option code_unit).

Local Abbreviation is_unit := (is_unit unit_of).
Local Abbreviation is_opt := (is_opt unit_of).
Local Abbreviation indexOf := (indexOf unit_of).
Local Abbreviation scan_step := (scan_step unit_of).
Local Abbreviation scan_loop := (scan_loop unit_of).
Local Abbreviation scan_list := (scan_list unit_of).
Local Abbreviation run_steps := (run_steps unit_of).
Local Abbreviation entry_state := (entry_state unit_of).
Local Abbreviation extractJSON := (extractJSON unit_of).
Local Abbreviation lex_step := (lex_step unit_of).
Local Abbreviation object_end := (object_end unit_of).
Local Abbreviation backslash_only_in_strings := (backslash_only_in_strings unit_of).
Local Abbreviation balanced_object := (balanced_object unit_of).
Local Abbreviation no_backslash_before_closing_quote :=
  (no_backslash_before_closing_quote unit_of).
Local Abbreviation has_no := (has_no unit_of).
Local Abbreviation brace_free := (brace_free unit_of).
Local Abbreviation char_kind := (char_kind unit_of).
Local Abbreviation agree := (agree unit_of).
Local Abbreviation has_balanced_object := (has_balanced_object unit_of).

(** ** Elements and the four characters the scanner looks for *)

Lemma classify (x : A) : char_kind x.
Proof.
  destruct (unit_of x) as [c|] eqn:E.
  - assert (Hc : forall c', is_unit x c' = (c =? c')%N)
      by (intros c'; unfold Scanner.is_unit; by rewrite E).
    destruct (N.eq_dec c QUOTE) as [->|Nq];
      [apply KQuote; by rewrite Hc|].
    destruct (N.eq_dec c BACKSLASH) as [->|Nb];
      [apply KBackslash; by rewrite Hc|].
    destruct (N.eq_dec c LBRACE) as [->|Nl];
      [apply KLBrace; by rewrite Hc|].
    destruct (N.eq_dec c RBRACE) as [->|Nr];
      [apply KRBrace; by rewrite Hc|].
    apply KOther; rewrite Hc; by apply N.eqb_neq.
  - apply KOther; unfold Scanner.is_unit; by rewrite E.
Qed.

Ltac kinds x :=
  let q := fresh "Hq" in let b := fresh "Hb" in
  let l := fresh "Hl" in let r := fresh "Hr" in
  destruct (classify x) as [q b l r|q b l r|q b l r|q b l r|q b l r].

(** ** [indexOf] *)

Lemma indexOf_None c (text : list A) :
  indexOf c text = None <-> has_no c text = true.
Proof.
  induction text as [|x text IH]; simpl; [done|].
  destruct (is_unit x c); simpl.
  - split; discriminate.
  - rewrite <- IH. destruct (indexOf c text); simpl; split; done.
Qed.

Lemma indexOf_Some c (text : list A) start :
  indexOf c text = Some start ->
  has_no c (take start text) = true /\
  exists x, text !! start = Some x /\ is_unit x c = true.
Proof.
  revert start. induction text as [|x text IH]; intros start; simpl; [done|].
  destruct (is_unit x c) eqn:Hx.
  - intros [= <-]. simpl. eauto.
  - destruct (indexOf c text) as [n|] eqn:Hn; simpl; [|done].
    intros [= <-]. destruct (IH n eq_refl) as (Hpre & y & Hy & Hc).
    simpl. rewrite Hx, Hpre. eauto.
Qed.

Lemma indexOf_app c (pre : list A) x rest :
  has_no c pre = true -> is_unit x c = true ->
  indexOf c (pre ++ x :: rest) = Some (length pre).
Proof.
  intros Hpre Hx. induction pre as [|y pre IH]; simpl in *.
  - by rewrite Hx.
  - apply andb_prop in Hpre as [Hy Hpre].
    apply negb_true_iff in Hy. rewrite Hy, (IH Hpre). done.
Qed.

(** ** The index loop and the cursor loop compute the same thing *)

Lemma scan_loop_cursor (text : list A) start fuel i st :
  length text - i <= fuel ->
  scan_loop text start fuel i st
  = (fun k => slice start (i + k) text)
      <$> scan_list (before text i) (drop i text) st.
Proof.
  revert i st. induction fuel as [|fuel IH]; intros i st Hfuel; simpl.
  - rewrite drop_ge by lia. done.
  - destruct (text !! i) as [ch|] eqn:Hch.
    + rewrite (drop_S _ _ _ Hch). simpl.
      destruct (at_end _); simpl.
      * by rewrite Nat.add_1_r.
      * rewrite IH by (apply lookup_lt_Some in Hch; lia).
        simpl. rewrite Hch. rewrite <- option_fmap_compose.
        apply option_fmap_ext. intros k. simpl.
        by rewrite Nat.add_succ_r.
    + apply lookup_ge_None in Hch. rewrite drop_ge by lia. done.
Qed.

Lemma extractJSON_cursor (text : list A) start :
  indexOf LBRACE text = Some start ->
  extractJSON text
  = (fun k => take k (drop start text))
      <$> scan_list (before text start) (drop start text) initial_state.
Proof.
  intros Hs. unfold Scanner.extractJSON. rewrite Hs.
  rewrite scan_loop_cursor by lia.
  apply option_fmap_ext. intros k. unfold slice.
  by rewrite take_drop_commute.
Qed.

(** ** What the cursor loop returns, in terms of the loop variables *)

Lemma scan_list_app prev (l l' : list A) st k :
  scan_list prev l st = Some k -> scan_list prev (l ++ l') st = Some k.
Proof.
  revert prev st k. induction l as [|ch l IH]; intros prev st k; simpl; [done|].
  destruct (at_end _); [done|].
  destruct (scan_list (Some ch) l _) as [n|] eqn:Hn; simpl; [|done].
  intros [= <-]. by rewrite (IH _ _ _ Hn).
Qed.

Lemma scan_list_Some prev (rest : list A) st k :
  scan_list prev rest st = Some k ->
  1 <= k <= length rest /\
  at_end (run_steps prev rest st k) = true /\
  forall n, 1 <= n < k -> at_end (run_steps prev rest st n) = false.
Proof.
  revert prev st k. induction rest as [|ch rest IH]; intros prev st k; simpl;
    [done|].
  destruct (at_end (scan_step prev ch st)) eqn:He.
  - intros [= <-]. simpl. split; [lia|]. split; [by destruct rest|].
    intros n Hn; lia.
  - destruct (scan_list (Some ch) rest _) as [m|] eqn:Hm; simpl; [|done].
    intros [= <-]. destruct (IH _ _ _ Hm) as (Hlen & Hend & Hbefore).
    split; [lia|]. split; [done|].
    intros [|[|n]] Hn; [lia|by destruct rest|].
    apply (Hbefore (S n)). lia.
Qed.

Lemma scan_list_None prev (rest : list A) st :
  scan_list prev rest st = None <->
  forall n, 1 <= n <= length rest -> at_end (run_steps prev rest st n) = false.
Proof.
  revert prev st. induction rest as [|ch rest IH]; intros prev st; simpl.
  - split; [|done]. intros _ n Hn; lia.
  - destruct (at_end (scan_step prev ch st)) eqn:He.
    + split; [done|]. intros H. specialize (H 1 ltac:(lia)).
      change (at_end (scan_step prev ch st) = false) in H. congruence.
    + destruct (scan_list (Some ch) rest _) as [m|] eqn:Hm; simpl.
      * split; [done|]. intros H.
        assert (Hm' : scan_list (Some ch) rest (scan_step prev ch st) = None).
        { apply IH. intros n Hn. apply (H (S n)). lia. }
        congruence.
      * split; [|done]. intros _ [|[|n]] Hn; [lia|by destruct rest|].
        apply (proj1 (IH _ _) Hm (S n)). lia.
Qed.

Lemma run_steps_S prev (rest : list A) st n ch :
  rest !! n = Some ch ->
  run_steps prev rest st (S n)
  = scan_step (match n with O => prev | S m => rest !! m end) ch
              (run_steps prev rest st n).
Proof.
  revert prev st n. induction rest as [|x rest IH]; intros prev st n; [done|].
  destruct n as [|n].
  - simpl. by intros [= ->].
  - intros Hch. change ((x :: rest) !! S n) with (rest !! n) in Hch.
    change (run_steps prev (x :: rest) st (S (S n)))
      with (run_steps (Some x) rest (scan_step prev x st) (S n)).
    change (run_steps prev (x :: rest) st (S n))
      with (run_steps (Some x) rest (scan_step prev x st) n).
    rewrite (IH (Some x) (scan_step prev x st) n Hch).
    by destruct n.
Qed.

(** The variables at the test of iteration [i] come from those on entry to
    it by one pass through the loop body. *)
Lemma entry_state_S (text : list A) start i ch :
  start <= i -> text !! i = Some ch ->
  entry_state text start (S i)
  = scan_step (before text i) ch (entry_state text start i).
Proof.
  intros Hi Hch. unfold Scanner.entry_state.
  replace (S i - start) with (S (i - start)) by lia.
  rewrite (run_steps_S _ _ _ _ ch).
  - f_equal. destruct (i - start) as [|m] eqn:Hm.
    + by replace i with start by lia.
    + rewrite lookup_drop. replace i with (S (start + m)) by lia. done.
  - rewrite lookup_drop. by replace (start + (i - start)) with i by lia.
Qed.

(** ** The scanner agrees with JSON's reading of string literals, unless a
    literal closes right after a backslash *)

Lemma scan_list_object_end m prev (rest : list A) d s :
  agree m s prev ->
  backslash_only_in_strings m rest = true ->
  no_backslash_before_closing_quote m prev rest = true ->
  scan_list prev rest {| depth := d; inString := s |} = object_end m d rest.
Proof.
  revert m prev d s. induction rest as [|ch rest IH];
    intros m prev d s (Hs & Hesc & Hout) Hbs Hcq; [done|].
  simpl in Hbs, Hcq.
  apply andb_prop in Hbs as [Hbs1 Hbs]. apply andb_prop in Hcq as [Hcq1 Hcq].
  simpl. unfold Scanner.scan_step, at_end. simpl.
  destruct m; simpl in *; subst s;
    try (rewrite (Hesc eq_refl)); try (rewrite (Hout eq_refl));
    kinds ch; rewrite ?Hq, ?Hb, ?Hl, ?Hr in *; simpl in *;
    try discriminate;
    try (destruct (is_opt prev BACKSLASH); simpl in *; try discriminate);
    try (destruct (_ =? 0)%Z; [done|]);
    f_equal; apply IH; try done;
    repeat split; simpl; try done; try congruence.
Qed.

Lemma balanced_object_scan prev (obj : list A) :
  balanced_object obj = true ->
  no_backslash_before_closing_quote Outside None obj = true ->
  scan_list prev obj initial_state = Some (length obj).
Proof.
  unfold Scanner.balanced_object. intros Hb Hcq.
  apply andb_prop in Hb as [Hb Hend]. apply andb_prop in Hb as [Hhd Hbs].
  apply bool_decide_eq_true in Hend. rewrite <- Hend.
  destruct obj as [|x obj]; [done|]. simpl in *.
  unfold Scanner.scan_step, at_end, initial_state. simpl.
  kinds x; rewrite ?Hq, ?Hb, ?Hl, ?Hr in *; simpl in *; try discriminate.
  f_equal. by apply scan_list_object_end.
Qed.

(** From an opening brace on, the scan and JSON's reading stop at the same
    place, if at all, unless a literal closes right after a backslash. *)
Lemma scan_list_agrees prev (l : list A) :
  is_opt (head l) LBRACE = true ->
  backslash_only_in_strings Outside l = true ->
  no_backslash_before_closing_quote Outside None l = true ->
  scan_list prev l initial_state = object_end Outside 0 l.
Proof.
  intros Hhd Hbs Hcq. destruct l as [|x l]; [done|]. simpl in *.
  unfold Scanner.scan_step, at_end, initial_state. simpl.
  kinds x; rewrite ?Hq, ?Hb, ?Hl, ?Hr in *; simpl in *; try discriminate.
  f_equal. by apply scan_list_object_end.
Qed.

(** The scanner returns the first object of a text, whatever follows it. *)
Lemma extract_first_object (pre obj rest : list A) :
  has_no LBRACE pre = true ->
  balanced_object obj = true ->
  no_backslash_before_closing_quote Outside None obj = true ->
  extractJSON (pre ++ obj ++ rest) = Some obj.
Proof.
  intros Hpre Hobj Hcq.
  assert (Hstart : indexOf LBRACE (pre ++ obj ++ rest) = Some (length pre)).
  { unfold Scanner.balanced_object in Hobj.
    destruct obj as [|x obj]; [done|]. simpl in Hobj.
    apply indexOf_app; [done|]. by destruct (is_unit x LBRACE). }
  rewrite (extractJSON_cursor _ _ Hstart), drop_app_length.
  rewrite (scan_list_app _ _ _ _ _ (balanced_object_scan _ _ Hobj Hcq)).
  simpl. by rewrite take_app_length.
Qed.

(** A scan that has read its opening brace and meets no closing brace never
    returns. *)
Lemma scan_list_no_rbrace prev (rest : list A) st :
  has_no RBRACE rest = true -> (1 <= depth st)%Z ->
  scan_list prev rest st = None.
Proof.
  revert prev st. induction rest as [|ch rest IH]; intros prev st Hno Hd;
    [done|].
  simpl in Hno. apply andb_prop in Hno as [Hch Hno].
  apply negb_true_iff in Hch. simpl.
  assert (Hd' : (1 <= depth (scan_step prev ch st))%Z).
  { unfold Scanner.scan_step. rewrite Hch.
    destruct (negb _); simpl; [|done]. destruct (is_unit ch LBRACE); lia. }
  unfold at_end. destruct (depth (scan_step prev ch st) =? 0)%Z eqn:E;
    [lia|]. rewrite andb_false_r. by rewrite IH.
Qed.

(** Until the loop returns, the depth stays at one or more. *)
Lemma depth_positive prev (rest : list A) st n :
  (1 <= depth st)%Z ->
  (forall m, 1 <= m <= n -> at_end (run_steps prev rest st m) = false) ->
  (1 <= depth (run_steps prev rest st n))%Z.
Proof.
  revert prev rest st. induction n as [|n IH]; intros prev rest st Hd Hno;
    [done|].
  destruct rest as [|ch rest]; [done|].
  change (run_steps prev (ch :: rest) st (S n))
    with (run_steps (Some ch) rest (scan_step prev ch st) n).
  apply IH.
  - specialize (Hno 1 ltac:(lia)).
    change (at_end (scan_step prev ch st) = false) in Hno.
    revert Hno. unfold at_end, Scanner.scan_step.
    destruct (is_unit ch QUOTE && negb (is_opt prev BACKSLASH)),
             (inString st); simpl; try lia;
      destruct (is_unit ch LBRACE); try lia;
      destruct (is_unit ch RBRACE); lia.
  - intros m Hm. apply (Hno (S m)). lia.
Qed.

Lemma at_end_depth (st : scan_state) :
  at_end st = true -> depth st = 0%Z.
Proof. unfold at_end. intros H. apply andb_prop in H as [_ H]. lia. Qed.

(** What the scanner returns is never empty. *)
Lemma extractJSON_nonempty (text s : list A) :
  extractJSON text = Some s -> s <> [].
Proof.
  destruct (indexOf LBRACE text) as [start|] eqn:Hs;
    [|unfold Scanner.extractJSON; by rewrite Hs].
  rewrite (extractJSON_cursor _ _ Hs).
  destruct (scan_list _ _ _) as [k|] eqn:Hk; [|done]. intros [= <-].
  destruct (scan_list_Some _ _ _ _ Hk) as (Hlen & _).
  intros Hnil. apply (f_equal length) in Hnil.
  rewrite length_take in Hnil. simpl in Hnil. lia.
Qed.

(** ** The stated properties *)

(** C1 (as amended).  A text made of one balanced object, with text free of
    braces before and after it, and in which no string literal of the
    object closes right after a backslash: the scanner returns exactly the
    object, neither null nor a shorter or longer slice. *)
Theorem extract_single_object (pre obj post : list A) :
  brace_free pre = true ->
  brace_free post = true ->
  balanced_object obj = true ->
  no_backslash_before_closing_quote Outside None obj = true ->
  extractJSON (pre ++ obj ++ post) = Some obj.
Proof.
  intros Hpre _ Hobj Hcq. apply andb_prop in Hpre as [Hpre _].
  by apply extract_first_object.
Qed.

(** C3 (as amended).  A text with a balanced object, a separator and a
    second object: if no opening brace comes before the first object and
    no string literal of the first object closes right after a backslash,
    the scanner returns the first object alone, and the same whatever text
    follows its closing brace. *)
Theorem extract_first_of_many (pre obj1 sep obj2 post : list A) :
  has_no LBRACE pre = true ->
  balanced_object obj1 = true ->
  no_backslash_before_closing_quote Outside None obj1 = true ->
  extractJSON (pre ++ obj1 ++ sep ++ obj2 ++ post) = Some obj1
  /\ forall rest, extractJSON (pre ++ obj1 ++ rest) = Some obj1.
Proof.
  intros Hpre Hobj Hcq. split; [|intros rest]; by apply extract_first_object.
Qed.

(** C4 (as amended).  The scanner returns null when the text has no
    opening brace, and when the scan from the first opening brace on ends
    without the depth counter back at zero (which, as the counter only
    moves outside strings, is to say: back at zero outside a string), as
    when no closing brace follows; and it returns null in no other case.
    What it returns otherwise is the slice that ends where the depth is
    first back at zero, never a shorter one.  When, from the first opening
    brace on, no backslash stands outside a string literal and no string
    literal closes right after a backslash, the scan stops where JSON's
    reading of the text does: null is then returned exactly when no
    balanced object begins at the first opening brace. *)
Theorem extract_null_iff (text : list A) :
  (has_no LBRACE text = true -> extractJSON text = None)
  /\ (forall start, indexOf LBRACE text = Some start ->
        (extractJSON text = None <->
         forall i, start <= i < length text ->
                   at_end (entry_state text start (S i)) = false))
  /\ (forall start, indexOf LBRACE text = Some start ->
        (extractJSON text = None <->
         forall i, start <= i < length text ->
                   depth (entry_state text start (S i)) <> 0%Z))
  /\ (forall start, indexOf LBRACE text = Some start ->
        has_no RBRACE (drop start text) = true -> extractJSON text = None)
  /\ (forall start s, indexOf LBRACE text = Some start ->
        extractJSON text = Some s ->
        exists i, start <= i < length text
                  /\ s = slice start (S i) text
                  /\ at_end (entry_state text start (S i)) = true
                  /\ forall j, start <= j < i ->
                       at_end (entry_state text start (S j)) = false)
  /\ (forall start, indexOf LBRACE text = Some start ->
        backslash_only_in_strings Outside (drop start text) = true ->
        no_backslash_before_closing_quote Outside None (drop start text)
        = true ->
        extractJSON text
        = (fun k => take k (drop start text))
            <$> object_end Outside 0 (drop start text)
        /\ (extractJSON text = None <->
            object_end Outside 0 (drop start text) = None)).
Proof.
  assert (Hiff : forall start, indexOf LBRACE text = Some start ->
            (extractJSON text = None <->
             forall i, start <= i < length text ->
                       at_end (entry_state text start (S i)) = false)).
  { intros start Hs. rewrite (extractJSON_cursor _ _ Hs).
    rewrite fmap_None, scan_list_None, length_drop.
    unfold Scanner.entry_state. split.
    + intros H i Hi. replace (S i - start) with (S (i - start)) by lia.
      apply H. lia.
    + intros H n Hn. specialize (H (start + n - 1) ltac:(lia)).
      by replace (S (start + n - 1) - start) with n in H by lia. }
  split; [|split; [|split; [|split; [|split]]]].
  - intros Hno. unfold Scanner.extractJSON.
    by rewrite (proj2 (indexOf_None _ _) Hno).
  - done.
  - intros start Hs. rewrite (Hiff _ Hs). split.
    + intros H i Hi.
      destruct (indexOf_Some _ _ _ Hs) as (_ & x & Hx & Hc).
      unfold Scanner.entry_state.
      replace (S i - start) with (S (i - start)) by lia.
      rewrite (drop_S _ _ _ Hx).
      change (run_steps (before text start) (x :: drop (S start) text)
                initial_state (S (i - start)))
        with (run_steps (Some x) (drop (S start) text)
                (scan_step (before text start) x initial_state) (i - start)).
      assert (Hone : scan_step (before text start) x initial_state
                     = {| depth := 1; inString := false |}).
      { unfold Scanner.scan_step, initial_state. simpl.
        kinds x; rewrite ?Hq, ?Hb, ?Hl, ?Hr in *; try discriminate. done. }
      enough (1 <= depth (run_steps (Some x) (drop (S start) text)
                            (scan_step (before text start) x initial_state)
                            (i - start)))%Z by lia.
      apply depth_positive; [by rewrite Hone|].
      intros m Hm. specialize (H (start + m) ltac:(lia)).
      unfold Scanner.entry_state in H.
      replace (S (start + m) - start) with (S m) in H by lia.
      by rewrite (drop_S _ _ _ Hx) in H.
    + intros H i Hi. specialize (H i Hi).
      destruct (at_end _) eqn:E; [|done].
      by apply at_end_depth in E.
  - intros start Hs Hno. rewrite (extractJSON_cursor _ _ Hs).
    destruct (indexOf_Some _ _ _ Hs) as (_ & x & Hx & Hc).
    rewrite (drop_S _ _ _ Hx) in *. simpl in *.
    apply andb_prop in Hno as [_ Hno].
    unfold Scanner.scan_step, at_end, initial_state. simpl.
    kinds x; rewrite ?Hq, ?Hb, ?Hl, ?Hr in *; try discriminate. simpl.
    by rewrite scan_list_no_rbrace.
  - intros start s Hs. rewrite (extractJSON_cursor _ _ Hs).
    destruct (scan_list _ _ _) as [k|] eqn:Hk; [|done]. intros [= <-].
    destruct (scan_list_Some _ _ _ _ Hk) as (Hlen & Hend & Hbefore).
    rewrite length_drop in Hlen. exists (start + k - 1).
    unfold Scanner.entry_state.
    replace (S (start + k - 1) - start) with k by lia.
    split; [lia|]. split; [|split; [done|]].
    + unfold slice. rewrite take_drop_commute. f_equal. f_equal. lia.
    + intros j Hj. replace (S j - start) with (S (j - start)) by lia.
      apply Hbefore. lia.
  - intros start Hs Hbs Hcq.
    assert (Heq : extractJSON text
                  = (fun k => take k (drop start text))
                      <$> object_end Outside 0 (drop start text)).
    { rewrite (extractJSON_cursor _ _ Hs). f_equal.
      apply scan_list_agrees; try done.
      destruct (indexOf_Some _ _ _ Hs) as (_ & x & Hx & Hc).
      by rewrite (drop_S _ _ _ Hx). }
    split; [done|]. rewrite Heq. apply fmap_None.
Qed.

(** C5.  In every iteration of the scan, reading [ch] at index [i]:
    a quote not preceded by a backslash toggles [inString]; a quote
    preceded by a backslash does not, also when that backslash is itself
    preceded by one; nothing else changes [inString]; and [depth] moves, by
    one up at an opening and one down at a closing brace, only while
    [inString] is false. *)
Theorem scan_step_rules (text : list A) (start i : nat) (ch : A) :
  start <= i -> text !! i = Some ch ->
  let st := entry_state text start i in
  let st' := entry_state text start (S i) in
  (is_unit ch QUOTE = true -> is_opt (before text i) BACKSLASH = false ->
     inString st' = negb (inString st))
  /\ (is_unit ch QUOTE = true -> is_opt (before text i) BACKSLASH = true ->
     inString st' = inString st)
  /\ (is_unit ch QUOTE = true -> is_opt (before text i) BACKSLASH = true ->
      is_opt (before text (i - 1)) BACKSLASH = true ->
      inString st' = inString st)
  /\ (is_unit ch QUOTE = false -> inString st' = inString st)
  /\ (inString st' = true -> depth st' = depth st)
  /\ (inString st' = false ->
      depth st' = (depth st + (if is_unit ch LBRACE then 1 else 0)
                            - (if is_unit ch RBRACE then 1 else 0))%Z).
Proof.
  intros Hi Hch st st'. subst st st'. rewrite (entry_state_S _ _ _ _ Hi Hch).
  generalize (entry_state text start i). intros [d s].
  unfold Scanner.scan_step. simpl.
  repeat split.
  - intros -> ->. simpl. by destruct s.
  - intros -> ->. simpl. by destruct s.
  - intros -> -> _. simpl. by destruct s.
  - intros ->. simpl. by destruct s.
  - destruct (is_unit ch QUOTE && negb (is_opt (before text i) BACKSLASH));
      destruct s; simpl; done.
  - kinds ch; rewrite ?Hq, ?Hb, ?Hl, ?Hr;
      destruct (negb (is_opt (before text i) BACKSLASH)), s; simpl;
      intros; try done; lia.
Qed.

(** ** More on what the scanner returns *)

Lemma scan_step_depth prev (ch : A) st :
  (1 <= depth st)%Z -> at_end (scan_step prev ch st) = false ->
  (1 <= depth (scan_step prev ch st))%Z.
Proof.
  unfold at_end, Scanner.scan_step.
  destruct (is_unit ch QUOTE && negb (is_opt prev BACKSLASH)),
           (inString st); simpl; try lia;
    destruct (is_unit ch LBRACE); try lia;
    destruct (is_unit ch RBRACE); lia.
Qed.

Lemma scan_step_closes prev (ch : A) st :
  (1 <= depth st)%Z -> at_end (scan_step prev ch st) = true ->
  is_unit ch RBRACE = true.
Proof.
  unfold at_end, Scanner.scan_step.
  destruct (is_unit ch QUOTE && negb (is_opt prev BACKSLASH)),
           (inString st); simpl; try done;
    destruct (is_unit ch LBRACE); try lia;
    destruct (is_unit ch RBRACE); try done; lia.
Qed.

Lemma scan_list_closes prev (rest : list A) st k :
  (1 <= depth st)%Z -> scan_list prev rest st = Some k ->
  exists ch, rest !! (k - 1) = Some ch /\ is_unit ch RBRACE = true.
Proof.
  revert prev st k. induction rest as [|ch rest IH]; intros prev st k Hd;
    simpl; [done|].
  destruct (at_end (scan_step prev ch st)) eqn:He.
  - intros [= <-]. exists ch. split; [done|]. by eapply scan_step_closes.
  - destruct (scan_list (Some ch) rest _) as [m|] eqn:Hm; simpl; [|done].
    intros [= <-].
    destruct (IH _ _ _ (scan_step_depth _ _ _ Hd He) Hm) as (c & Hc & Hr).
    destruct (scan_list_Some _ _ _ _ Hm) as (Hlen & _).
    exists c. split; [|done].
    replace (S m - 1) with (S (m - 1)) by lia. done.
Qed.

Lemma scan_list_take prev (l : list A) st k :
  scan_list prev l st = Some k -> scan_list prev (take k l) st = Some k.
Proof.
  revert prev st k. induction l as [|ch l IH]; intros prev st k; simpl; [done|].
  destruct (at_end (scan_step prev ch st)) eqn:He.
  - intros [= <-]. simpl. by rewrite He.
  - destruct (scan_list (Some ch) l _) as [m|] eqn:Hm; simpl; [|done].
    intros [= <-]. simpl. by rewrite He, (IH _ _ _ Hm).
Qed.

(** The element before an opening brace does not matter to the scan. *)
Lemma scan_list_first prev prev' (x : A) (l : list A) st :
  is_unit x LBRACE = true ->
  scan_list prev (x :: l) st = scan_list prev' (x :: l) st.
Proof.
  intros Hx. simpl. unfold Scanner.scan_step.
  kinds x; rewrite ?Hq, ?Hb, ?Hl, ?Hr in *; try discriminate. done.
Qed.

(** The scan that [extractJSON] runs, and where it stops. *)
Lemma extractJSON_Some (text s : list A) :
  extractJSON text = Some s ->
  exists start x k,
    indexOf LBRACE text = Some start
    /\ text !! start = Some x /\ is_unit x LBRACE = true
    /\ scan_list None (x :: drop (S start) text) initial_state = Some k
    /\ 2 <= k <= length text - start
    /\ s = take k (x :: drop (S start) text)
    /\ text = take start text ++ s ++ drop (start + k) text.
Proof.
  intros H. destruct (indexOf LBRACE text) as [start|] eqn:Hs;
    [|unfold Scanner.extractJSON in H; by rewrite Hs in H].
  rewrite (extractJSON_cursor _ _ Hs) in H.
  destruct (indexOf_Some _ _ _ Hs) as (_ & x & Hx & Hc).
  rewrite (drop_S _ _ _ Hx) in H.
  rewrite (scan_list_first _ None _ _ _ Hc) in H.
  destruct (scan_list None _ _) as [k|] eqn:Hk; [|done].
  injection H as <-.
  destruct (scan_list_Some _ _ _ _ Hk) as (Hlen & _).
  rewrite <- (drop_S _ _ _ Hx), length_drop in Hlen.
  assert (k <> 1).
  { intros ->. revert Hk. simpl. unfold Scanner.scan_step, at_end, initial_state.
    kinds x; rewrite ?Hq, ?Hb, ?Hl, ?Hr in *; try discriminate. simpl.
    destruct (scan_list _ _ _) as [m|] eqn:Hm; [|done]. intros [= ->].
    apply scan_list_Some in Hm. lia. }
  exists start, x, k. repeat split; try done; try lia.
  rewrite <- (drop_S _ _ _ Hx), <- drop_drop, take_drop.
  by rewrite take_drop.
Qed.

(** X1.  What the scanner returns is a piece of the text that begins at
    the first opening brace of the text, begins with that brace and ends
    with a closing brace. *)
Theorem extract_result_shape (text s : list A) :
  extractJSON text = Some s ->
  exists pre rest,
    text = pre ++ s ++ rest
    /\ has_no LBRACE pre = true
    /\ is_opt (head s) LBRACE = true
    /\ is_opt (last s) RBRACE = true.
Proof.
  intros H.
  destruct (extractJSON_Some _ _ H)
    as (start & x & k & Hs & Hx & Hc & Hk & Hlen & -> & Htext).
  exists (take start text), (drop (start + k) text).
  split; [done|]. split; [by apply (indexOf_Some _ _ _ Hs)|].
  destruct k as [|k]; [lia|]. split; [done|].
  revert Hk. simpl. unfold Scanner.scan_step, at_end, initial_state.
  kinds x; rewrite ?Hq, ?Hb, ?Hl, ?Hr in *; try discriminate. simpl.
  destruct (scan_list _ _ _) as [m|] eqn:Hm; [|done]. intros [= <-].
  destruct (scan_list_Some _ _ _ _ Hm) as (Hm1 & _).
  apply scan_list_closes in Hm as (c & Hlook & Hr'); [|simpl; lia].
  rewrite last_lookup. simpl. rewrite length_take.
  replace (m `min` length (drop (S start) text)) with (S (m - 1)) by lia.
  simpl. rewrite lookup_take_lt by lia. by rewrite Hlook.
Qed.

(** X2.  What the scanner returns from a text it returns from every text
    that holds the same piece after a prefix without opening brace,
    whatever follows; in particular it returns its own result unchanged. *)
Theorem extract_stable (text s : list A) :
  extractJSON text = Some s ->
  (forall pre rest, has_no LBRACE pre = true ->
                    extractJSON (pre ++ s ++ rest) = Some s)
  /\ extractJSON s = Some s.
Proof.
  intros H.
  destruct (extractJSON_Some _ _ H)
    as (start & x & k & Hs & Hx & Hc & Hk & Hlen & -> & Htext).
  assert (Hgen : forall pre rest, has_no LBRACE pre = true ->
            extractJSON (pre ++ take k (x :: drop (S start) text) ++ rest)
            = Some (take k (x :: drop (S start) text))).
  { intros pre rest Hpre.
    destruct k as [|k]; [lia|]. simpl.
    assert (Hi : indexOf LBRACE
                   (pre ++ x :: take k (drop (S start) text) ++ rest)
                 = Some (length pre)) by by apply indexOf_app.
    rewrite (extractJSON_cursor _ _ Hi), drop_app_length.
    change (x :: take k (drop (S start) text) ++ rest)
      with ((x :: take k (drop (S start) text)) ++ rest).
    rewrite (scan_list_app _ _ _ _ (S k)).
    - simpl. f_equal. f_equal. apply take_app_length'.
      rewrite length_take, length_drop. lia.
    - rewrite (scan_list_first _ None _ _ _ Hc).
      apply (scan_list_take _ _ _ _ Hk). }
  split; [done|].
  specialize (Hgen [] [] eq_refl). by rewrite app_nil_r in Hgen.
Qed.

Lemma has_no_backslash_safe m prev (l : list A) :
  has_no BACKSLASH l = true -> is_opt prev BACKSLASH = false ->
  no_backslash_before_closing_quote m prev l = true.
Proof.
  revert m prev. induction l as [|ch l IH]; intros m prev Hno Hprev; [done|].
  simpl in *. apply andb_prop in Hno as [Hch Hno].
  apply negb_true_iff in Hch.
  rewrite IH by done. rewrite Hprev, andb_false_r. by destruct m.
Qed.

(** X3.  On a balanced object without any backslash the scanner is right:
    it returns the object, whatever text without opening brace comes
    before and whatever text comes after. *)
Theorem extract_backslash_free (pre obj rest : list A) :
  has_no LBRACE pre = true ->
  balanced_object obj = true ->
  has_no BACKSLASH obj = true ->
  extractJSON (pre ++ obj ++ rest) = Some obj.
Proof.
  intros Hpre Hobj Hno. apply extract_first_object; try done.
  by apply has_no_backslash_safe.
Qed.

End Facts.

(** ** Concrete texts *)

(** The specification's examples. *)
Example first_of_two :
  extractJSON_string (qstr "first {'a':1} then {'b':2}") = Some (qstr "{'a':1}").
Proof. reflexivity. Qed.

Example brace_inside_string :
  extractJSON_string (qstr "{'note':'a } inside string'}")
  = Some (qstr "{'note':'a } inside string'}").
Proof. reflexivity. Qed.

Example unmatched_brace :
  extractJSON_string (qstr "{'a': {'b': 1}") = None.
Proof. reflexivity. Qed.

(** A string value that ends in a backslash, written [\\] in JSON: the
    quote that closes it follows a backslash, the scanner does not take it
    for the end of the string, and the closing brace is read as part of the
    string. *)
Example escaped_backslash_at_end :
  extractJSON_string (qstr "{'dir':'C:\\'}") = None.
Proof. reflexivity. Qed.

Lemma extract_single_object_witness :
  let pre := str "Here you go: " in
  let obj := qstr "{'prompt':'red fox in snow, \'realistic\'','params':{'engine':'dalle','seed':null}}" in
  let post := str " Enjoy!" in
  brace_free Some pre = true
  /\ brace_free Some post = true
  /\ balanced_object Some obj = true
  /\ no_backslash_before_closing_quote Some Outside None obj = true
  /\ extractJSON Some (pre ++ obj ++ post) = Some obj.
Proof.
  intros pre obj post.
  split; [reflexivity|]. split; [reflexivity|].
  split; [reflexivity|]. split; [reflexivity|].
  apply (extract_single_object Some pre obj post); reflexivity.
Defined.

(** C1 as stated fails: a JSON object between brace-free texts for which
    the scanner returns null. *)
Lemma extract_single_object_counterexample :
  let pre := str "Saved to " in
  let obj := qstr "{'dir':'C:\\'}" in
  let post := str " as asked." in
  brace_free Some pre = true
  /\ brace_free Some post = true
  /\ balanced_object Some obj = true
  /\ extractJSON_string (pre ++ obj ++ post) = None
  /\ extractJSON_string (pre ++ obj ++ post) <> Some obj.
Proof. vm_compute. repeat split; discriminate. Qed.

Lemma extract_first_of_many_witness :
  let pre := str "first " in
  let obj1 := qstr "{'a':1}" in
  let sep := str " then " in
  let obj2 := qstr "{'b':2}" in
  let post := str " and more" in
  has_no Some LBRACE pre = true
  /\ balanced_object Some obj1 = true
  /\ no_backslash_before_closing_quote Some Outside None obj1 = true
  /\ extractJSON Some (pre ++ obj1 ++ sep ++ obj2 ++ post) = Some obj1.
Proof.
  intros pre obj1 sep obj2 post.
  split; [reflexivity|]. split; [reflexivity|]. split; [reflexivity|].
  apply (extract_first_of_many Some pre obj1 sep obj2 post); reflexivity.
Defined.

(** C3 as stated fails in two ways: on two JSON objects with text between
    them the scanner returns null, and not the first of them, when a string
    of the first ends in an escaped backslash, and when a stray opening
    brace, at which no balanced object begins, comes before the first. *)
Lemma extract_first_of_many_counterexample :
  let obj1 := qstr "{'dir':'C:\\'}" in
  let sep := str " then " in
  let obj2 := qstr "{'b':2}" in
  let stray := str "{ oops " in
  let obja := qstr "{'a':1}" in
  (brace_free Some sep = true
   /\ balanced_object Some obj1 = true
   /\ balanced_object Some obj2 = true
   /\ extractJSON_string (obj1 ++ sep ++ obj2) = None
   /\ extractJSON_string (obj1 ++ sep ++ obj2) <> Some obj1)
  /\ (balanced_object Some obja = true
      /\ balanced_object Some obj2 = true
      /\ has_no Some BACKSLASH (stray ++ obja ++ sep ++ obj2) = true
      /\ object_end Some Outside 0 (stray ++ obja ++ sep ++ obj2) = None
      /\ extractJSON_string (stray ++ obja ++ sep ++ obj2) = None
      /\ extractJSON_string (stray ++ obja ++ sep ++ obj2) <> Some obja).
Proof. vm_compute. repeat split; discriminate. Qed.

Lemma extract_null_iff_witness :
  extractJSON_string (str "Sorry, I cannot help with that.") = None
  /\ extractJSON_string (qstr "{'prompt': 'a fox', 'params': {") = None
  /\ (let text := qstr "Here: {'note':'a } \'quoted\' {','n':{'k':1}} done" in
      indexOf Some LBRACE text = Some 6%nat
      /\ backslash_only_in_strings Some Outside (drop 6 text) = true
      /\ no_backslash_before_closing_quote Some Outside None (drop 6 text)
         = true
      /\ extractJSON Some text
         = (fun k => take k (drop 6 text))
             <$> object_end Some Outside 0 (drop 6 text)).
Proof.
  split; [|split].
  - apply (proj1 (extract_null_iff Some _)). reflexivity.
  - apply (proj1 (proj2 (proj2 (proj2 (extract_null_iff Some _)))) O);
      reflexivity.
  - intros text. split; [reflexivity|]. split; [reflexivity|].
    split; [reflexivity|].
    apply (proj2 (proj2 (proj2 (proj2 (proj2 (extract_null_iff Some text)))))
             6%nat); reflexivity.
Defined.

(** C4 as stated fails in both directions: the scanner returns null on
    texts that hold a balanced object, after a stray opening brace or
    after a quoted one; and it returns a piece of a text that holds no
    balanced object, in which a string ends in an escaped backslash and
    another string, left open, holds the closing brace. *)
Lemma extract_null_iff_counterexample :
  (has_balanced_object Some (qstr "{ oops {'a':1}") = true
   /\ extractJSON_string (qstr "{ oops {'a':1}") = None)
  /\ (has_balanced_object Some (qstr "he said 'x{y' and {'a':1}") = true
      /\ extractJSON_string (qstr "he said 'x{y' and {'a':1}") = None)
  /\ (has_balanced_object Some (qstr "{'\\' '}") = false
      /\ extractJSON_string (qstr "{'\\' '}") = Some (qstr "{'\\' '}")).
Proof. vm_compute. repeat split. Qed.

Lemma scan_step_rules_witness :
  let text := qstr "{'a\\'}" in
  (0 <= 5)%nat
  /\ text !! 5%nat = Some QUOTE
  /\ inString (entry_state Some text 0 6) = inString (entry_state Some text 0 5).
Proof.
  intros text. split; [lia|]. split; [reflexivity|].
  apply (proj1 (proj2 (scan_step_rules Some text 0 5 QUOTE
                         ltac:(lia) eq_refl)));
    reflexivity.
Defined.

Lemma extract_result_shape_witness :
  let text := qstr "Sure! {'a':{'b':'}'}} {'c':1}" in
  let s := qstr "{'a':{'b':'}'}}" in
  extractJSON Some text = Some s
  /\ exists pre rest,
       text = pre ++ s ++ rest
       /\ has_no Some LBRACE pre = true
       /\ is_opt Some (head s) LBRACE = true
       /\ is_opt Some (last s) RBRACE = true.
Proof.
  intros text s. split; [reflexivity|].
  apply (extract_result_shape Some text s). reflexivity.
Defined.

Lemma extract_stable_witness :
  let text := qstr "Sure! {'a':{'b':'}'}} {'c':1}" in
  let s := qstr "{'a':{'b':'}'}}" in
  extractJSON Some text = Some s
  /\ extractJSON Some (str "Again: " ++ s ++ str "!") = Some s
  /\ extractJSON Some s = Some s.
Proof.
  intros text s. split; [reflexivity|].
  destruct (extract_stable Some text s eq_refl) as [Hany Hself].
  split; [|exact Hself]. by apply Hany.
Defined.

Lemma extract_backslash_free_witness :
  let pre := str "} stray, then " in
  let obj := qstr "{'prompt':'fox {in} snow','params':{}}" in
  let rest := qstr " and {'more' " in
  has_no Some LBRACE pre = true
  /\ balanced_object Some obj = true
  /\ has_no Some BACKSLASH obj = true
  /\ extractJSON Some (pre ++ obj ++ rest) = Some obj.
Proof.
  intros pre obj rest.
  split; [reflexivity|]. split; [reflexivity|]. split; [reflexivity|].
  apply (extract_backslash_free Some pre obj rest); reflexivity.
Defined.

End ScannerFacts.

(* ===================================================================== *)
(** * Properties of the input sanitizer *)
(* ===================================================================== *)

Module SanitizerFacts.
Import JS Sanitizer.

Local Open Scope nat_scope.

Lemma trimStart_split (s : jsstring) :
  exists l, s = l ++ trimStart s /\ all_whitespace l /\ starts_clean (trimStart s).
Proof.
  induction s as [|c s (l & Hs & Hl & Hc)]; simpl.
  - by exists [].
  - destruct (is_whitespace c) eqn:E.
    + exists (c :: l). split; [simpl; congruence|]. split; [|done].
      unfold all_whitespace. simpl. by rewrite E.
    + exists []. by repeat split.
Qed.

Lemma all_whitespace_rev (l : jsstring) : all_whitespace l -> all_whitespace (rev l).
Proof.
  unfold all_whitespace. rewrite !forallb_forall. intros H x Hx.
  apply H. by apply in_rev.
Qed.

Lemma trimEnd_split (s : jsstring) :
  exists r, s = trimEnd s ++ r /\ all_whitespace r
            /\ starts_clean (rev (trimEnd s)).
Proof.
  unfold trimEnd. destruct (trimStart_split (rev s)) as (l & Hs & Hl & Hc).
  exists (rev l). rewrite rev_involutive. split; [|split; [|done]].
  - rewrite <- rev_app_distr, <- Hs. by rewrite rev_involutive.
  - by apply all_whitespace_rev.
Qed.

Lemma starts_clean_prefix (t r : jsstring) :
  starts_clean (t ++ r) -> starts_clean t.
Proof. by destruct t. Qed.

(** [trim] removes whitespace at both ends and nothing else. *)
Lemma trim_split (s : jsstring) :
  exists l r, s = l ++ trim s ++ r
              /\ all_whitespace l /\ all_whitespace r
              /\ starts_clean (trim s) /\ starts_clean (rev (trim s)).
Proof.
  unfold trim. destruct (trimStart_split s) as (l & Hs & Hl & Hc).
  destruct (trimEnd_split (trimStart s)) as (r & Ht & Hr & Hc').
  exists l, r. split; [by rewrite <- Ht|]. repeat split; try done.
  rewrite Ht in Hc. by apply starts_clean_prefix in Hc.
Qed.

Lemma sanitizeInput_string (s : jsstring) :
  sanitizeInput (VString s) = take 800 (trim s).
Proof.
  unfold sanitizeInput, slice. simpl. destruct s as [|c s]; simpl; [done|].
  by rewrite drop_0.
Qed.

(** C8.  On a string the sanitizer returns the string without the
    whitespace at its two ends, cut to its first 800 code units; on
    anything that is no string, and on a string that is empty once
    trimmed, it returns the empty string; the result is never longer than
    800. *)
Theorem sanitizeInput_spec (text : value) :
  (forall s, text = VString s ->
     sanitizeInput text = take 800 (trim s)
     /\ exists l r, s = l ++ trim s ++ r
                    /\ all_whitespace l /\ all_whitespace r
                    /\ starts_clean (trim s) /\ starts_clean (rev (trim s)))
  /\ (typeof text <> TyString -> sanitizeInput text = [])
  /\ (forall s, text = VString s -> trim s = [] -> sanitizeInput text = [])
  /\ length (sanitizeInput text) <= 800.
Proof.
  split; [|split; [|split]].
  - intros s ->. split; [apply sanitizeInput_string|apply trim_split].
  - intros Hty. unfold sanitizeInput.
    destruct text; simpl in *; try done;
      by rewrite ?orb_true_r.
  - intros s -> Ht. by rewrite sanitizeInput_string, Ht.
  - destruct text as [| |b|x|s|l|fs];
      try (unfold sanitizeInput; simpl; rewrite ?orb_true_r; simpl; lia).
    rewrite sanitizeInput_string, length_take. lia.
Qed.

Lemma sanitizeInput_spec_witness :
  sanitizeInput (VString (str "  a red fox in snow  ")) = str "a red fox in snow"
  /\ sanitizeInput (VNumber (S754_finite false 1 0)) = []
  /\ sanitizeInput (VString (str "   ")) = [].
Proof.
  split; [|split].
  - rewrite (proj1 (proj1 (sanitizeInput_spec _) _ eq_refl)). reflexivity.
  - apply (proj1 (proj2 (sanitizeInput_spec _))). discriminate.
  - apply (proj1 (proj2 (proj2 (sanitizeInput_spec _))) _ eq_refl). reflexivity.
Defined.

(** ** When the result is empty, and sanitizing twice *)

Lemma trimStart_all_whitespace (s : jsstring) :
  all_whitespace s -> trimStart s = [].
Proof.
  unfold all_whitespace. induction s as [|c s IH]; simpl; [done|].
  intros H. apply andb_prop in H as [-> H]. by apply IH.
Qed.

Lemma trimStart_clean (s : jsstring) : starts_clean s -> trimStart s = s.
Proof. destruct s as [|c s]; simpl; [done|]. by intros ->. Qed.

Lemma trimEnd_clean (s : jsstring) : starts_clean (rev s) -> trimEnd s = s.
Proof.
  intros H. unfold trimEnd. rewrite trimStart_clean by done.
  apply rev_involutive.
Qed.

Lemma all_whitespace_app (l r : jsstring) :
  all_whitespace l -> all_whitespace r -> all_whitespace (l ++ r).
Proof. unfold all_whitespace. rewrite forallb_app. by intros -> ->. Qed.

Lemma trim_nil_iff (s : jsstring) : trim s = [] <-> all_whitespace s.
Proof.
  split.
  - intros H. destruct (trim_split s) as (l & r & Hs & Hl & Hr & _).
    rewrite H in Hs. rewrite Hs. by apply all_whitespace_app.
  - intros H. unfold trim. by rewrite (trimStart_all_whitespace _ H).
Qed.

Lemma trimEnd_length (s : jsstring) : length (trimEnd s) <= length s.
Proof.
  destruct (trimEnd_split s) as (r & Hs & _).
  rewrite Hs at 2. rewrite length_app. lia.
Qed.

Lemma starts_clean_take n (s : jsstring) :
  starts_clean s -> starts_clean (take n s).
Proof. destruct s, n; simpl; done. Qed.

Lemma sanitizeInput_not_string (v : value) :
  typeof v <> TyString -> sanitizeInput v = [].
Proof.
  intros Hty. unfold sanitizeInput.
  destruct v; simpl in *; try done; by rewrite ?orb_true_r.
Qed.

Lemma sanitizeInput_cases (v : value) :
  (exists s, v = VString s)
  \/ (typeof v <> TyString /\ sanitizeInput v = []).
Proof.
  destruct v as [| |b|x|s|l|fs]; try (by left; eauto);
    right; (split; [done|by apply sanitizeInput_not_string]).
Qed.

Lemma sanitizeInput_nil_iff (text : value) :
  sanitizeInput text = [] <->
  typeof text <> TyString
  \/ exists s, text = VString s /\ all_whitespace s.
Proof.
  destruct (sanitizeInput_cases text) as [[s ->]|[Hty Hnil]].
  - rewrite sanitizeInput_string. split.
    + intros H. right. exists s. split; [done|]. apply trim_nil_iff.
      destruct (trim s); [done|discriminate].
    + intros [Hn|(s' & [= <-] & Hs)]; [done|].
      by rewrite (proj2 (trim_nil_iff _) Hs).
  - split; [by left|done].
Qed.

(** X4.  The sanitizer returns the empty string exactly for the values
    that are no string and for the strings made of whitespace only (the
    empty string among them). *)
Theorem sanitizeInput_empty_iff (text : value) :
  sanitizeInput text = [] <->
  typeof text <> TyString
  \/ exists s, text = VString s /\ all_whitespace s.
Proof. apply sanitizeInput_nil_iff. Qed.

(** X5.  A sanitized prompt never begins with whitespace.  Sanitizing it
    again can only cut whitespace off its end; it changes nothing when the
    trimmed input fits in 800 code units, and it does change the result of
    some longer inputs, which the cut at 800 leaves ending in whitespace. *)
Theorem sanitizeInput_twice (text : value) :
  starts_clean (sanitizeInput text)
  /\ sanitizeInput (VString (sanitizeInput text)) = trimEnd (sanitizeInput text)
  /\ (forall s, text = VString s -> length (trim s) <= 800 ->
        sanitizeInput (VString (sanitizeInput text)) = sanitizeInput text)
  /\ (exists long,
        sanitizeInput (VString (sanitizeInput (VString long)))
        <> sanitizeInput (VString long)).
Proof.
  assert (Hclean : starts_clean (sanitizeInput text)).
  { destruct (sanitizeInput_cases text) as [[s ->]|[Hty ->]]; [|done].
    rewrite sanitizeInput_string. apply starts_clean_take.
    by destruct (trim_split s) as (l & r & _ & _ & _ & Hc & _). }
  assert (Hlen : length (sanitizeInput text) <= 800).
  { destruct (sanitizeInput_cases text) as [[s ->]|[Hty ->]]; [|simpl; lia].
    rewrite sanitizeInput_string, length_take. lia. }
  assert (Htwice : sanitizeInput (VString (sanitizeInput text))
                   = trimEnd (sanitizeInput text)).
  { rewrite sanitizeInput_string. unfold trim.
    rewrite (trimStart_clean _ Hclean). apply take_ge.
    pose proof (trimEnd_length (sanitizeInput text)). lia. }
  split; [done|]. split; [done|]. split.
  - intros s -> Hfit. rewrite Htwice, sanitizeInput_string.
    rewrite take_ge by done. apply trimEnd_clean.
    by destruct (trim_split s) as (l & r & _ & _ & _ & _ & Hc).
  - exists (repeat 97%N 799 ++ str " b"). vm_compute. discriminate.
Qed.

Lemma sanitizeInput_twice_witness :
  let s := str "  a red  fox " in
  length (trim s) <= 800
  /\ sanitizeInput (VString (sanitizeInput (VString s)))
     = sanitizeInput (VString s).
Proof.
  intros s. split; [vm_compute; lia|].
  apply (proj1 (proj2 (proj2 (sanitizeInput_twice (VString s)))) s eq_refl).
  vm_compute. lia.
Defined.

Lemma sanitizeInput_empty_iff_witness :
  all_whitespace (str "   ")
  /\ sanitizeInput (VString (str "   ")) = []
  /\ sanitizeInput (VArray [VString (str "a fox")]) = [].
Proof.
  split; [reflexivity|]. split.
  - apply (proj2 (sanitizeInput_empty_iff _)). right.
    exists (str "   "). by split.
  - apply (proj2 (sanitizeInput_empty_iff _)). by left.
Defined.

End SanitizerFacts.

(* ===================================================================== *)
(** * Properties of the schema validator *)
(* ===================================================================== *)

Module SchemaFacts.
Import JS Schema.

Lemma each_property_None check path data ps :
  each_property check path data ps = None ->
  forall k sub, In (k, sub) ps -> present data k = true ->
                check sub (path ++ [k]) (opt_get data k) = None.
Proof.
  induction ps as [|[k' sub'] ps IH]; simpl; [done|].
  intros H k sub [[= -> ->]|Hin] Hp.
  - rewrite Hp in H. by destruct (check sub _ _).
  - apply IH; [|done|done].
    destruct (present data k'); [|done]. by destruct (check sub' _ _).
Qed.

Lemma first_missing_None required data :
  first_missing required data = None ->
  forall k, In k required -> present data k = true.
Proof.
  unfold first_missing. intros H k Hk.
  apply (find_none _ _ H) in Hk. by apply negb_false_iff in Hk.
Qed.

Lemma present_false data k :
  opt_get data k = VUndefined -> present data k = false.
Proof. unfold present. by intros ->. Qed.

Lemma present_true data k :
  opt_get data k <> VUndefined -> present data k = true.
Proof. unfold present. by destruct (opt_get data k). Qed.

Lemma validate_object ps required path fs :
  validate (Sch [TObject] ps required) path (VObject fs)
  = match first_missing required (VObject fs) with
    | Some k => Some (MissingProperty path k)
    | None => each_property validate path (VObject fs) ps
    end.
Proof. reflexivity. Qed.

Lemma validate_object_None ps required path v :
  validate (Sch [TObject] ps required) path v = None -> exists fs, v = VObject fs.
Proof. destruct v; try discriminate. eauto. Qed.

Lemma validate_string_None path v :
  validate string_schema path v = None -> exists s, v = VString s.
Proof. destruct v; try discriminate. eauto. Qed.

Lemma opt_get_object fs k v :
  opt_get (VObject fs) k = v -> v <> VUndefined -> lookup_field k fs = Some v.
Proof.
  unfold opt_get, get. simpl. destruct (lookup_field k fs); simpl; congruence.
Qed.

(** What a value that passes validation looks like at its top. *)
Lemma valid_shape (o : value) :
  validateJSON o = true ->
  exists fs p ps,
    o = VObject fs
    /\ lookup_field (str "prompt") fs = Some (VString p)
    /\ lookup_field (str "params") fs = Some (VObject ps).
Proof.
  unfold validateJSON, validateJSON_errors.
  destruct (validate jsonSchema [] o) eqn:Hv; [done|]. intros _.
  destruct (validate_object_None _ _ _ _ Hv) as [fs ->].
  exists fs. unfold jsonSchema in Hv. rewrite validate_object in Hv.
  destruct (first_missing _ _) eqn:Hreq; [done|].
  pose proof (first_missing_None _ _ Hreq) as Hpresent.
  pose proof (each_property_None _ _ _ _ Hv) as Hprops.
  assert (Hprompt := Hprops (str "prompt") string_schema
            ltac:(simpl; tauto) (Hpresent (str "prompt") ltac:(simpl; tauto))).
  assert (Hparams := Hprops (str "params") params_schema
            ltac:(simpl; tauto) (Hpresent (str "params") ltac:(simpl; tauto))).
  apply validate_string_None in Hprompt as [p Hprompt].
  apply validate_object_None in Hparams as [ps Hparams].
  exists p, ps. split; [done|].
  split; by apply opt_get_object.
Qed.

Lemma valid_shape_params (o : value) :
  validateJSON o = true ->
  exists fs ps, o = VObject fs
                /\ lookup_field (str "params") fs = Some (VObject ps).
Proof.
  intros H. destruct (valid_shape o H) as (fs & p & ps & -> & _ & Hp). eauto.
Qed.

(** C6.  An object without [prompt] is rejected and the violation names
    [prompt]; an object without [params] is rejected and the violation
    names [params], or [prompt] if that is missing too (the validator
    reports the first missing field); an object whose [details] is an
    object without [subject] is rejected. *)
Theorem validate_required (fields : list (jsstring * value)) :
  let obj := VObject fields in
  (opt_get obj (str "prompt") = VUndefined ->
     validateJSON obj = false
     /\ validateJSON_errors obj = Some (MissingProperty [] (str "prompt")))
  /\ (opt_get obj (str "params") = VUndefined ->
     validateJSON obj = false
     /\ exists name, validateJSON_errors obj = Some (MissingProperty [] name)
                     /\ opt_get obj name = VUndefined
                     /\ (name = str "params"
                         \/ name = str "prompt"
                            /\ opt_get obj (str "prompt") = VUndefined))
  /\ (forall d, opt_get obj (str "details") = VObject d ->
        opt_get (VObject d) (str "subject") = VUndefined ->
        validateJSON obj = false).
Proof.
  intros obj. unfold validateJSON, validateJSON_errors, jsonSchema.
  subst obj. rewrite validate_object.
  split; [|split].
  - intros Hp. unfold first_missing. cbn [find].
    by rewrite (present_false _ _ Hp).
  - intros Hp. unfold first_missing. cbn [find].
    rewrite (present_false _ (str "params") Hp).
    destruct (present _ (str "prompt")) eqn:Hq; cbn [negb].
    + split; [done|]. exists (str "params"). by eauto.
    + split; [done|]. exists (str "prompt").
      assert (opt_get (VObject fields) (str "prompt") = VUndefined)
        by (unfold present in Hq;
            by destruct (opt_get (VObject fields) (str "prompt"))).
      by eauto 6.
  - intros d Hd Hs.
    destruct (first_missing _ _); [done|].
    destruct (each_property _ _ _ _) eqn:Hv; [done|]. exfalso.
    pose proof (each_property_None _ _ _ _ Hv (str "details") details_schema
                  ltac:(simpl; tauto)) as Hdet.
    rewrite Hd in Hdet.
    specialize (Hdet ltac:(apply present_true; by rewrite Hd)).
    unfold details_schema in Hdet. rewrite validate_object in Hdet.
    unfold first_missing in Hdet. cbn [find] in Hdet.
    by rewrite (present_false _ _ Hs) in Hdet.
Qed.

Lemma validate_required_witness :
  validateJSON_errors (VObject [(str "params", VObject [])])
    = Some (MissingProperty [] (str "prompt"))
  /\ validateJSON (VObject [(str "prompt", VString (str "a fox"))]) = false
  /\ validateJSON
       (VObject [(str "prompt", VString (str "a fox"));
                 (str "details",
                   VObject [(str "background", VString (str "snow"))]);
                 (str "params", VObject [])]) = false.
Proof.
  split; [|split].
  - apply (proj1 (validate_required _)). reflexivity.
  - apply (proj1 (proj2 (validate_required _))). reflexivity.
  - apply (proj2 (proj2 (validate_required _))
             [(str "background", VString (str "snow"))]); reflexivity.
Defined.

(** ** The validator accepts the shape of the schema and nothing else *)

Import ImageSpec.

Lemma first_missing_passes required data :
  match first_missing required data with None => true | Some _ => false end
  = forallb (present data) required.
Proof.
  unfold first_missing. induction required as [|k required IH]; simpl; [done|].
  by destruct (present data k).
Qed.

Lemma each_property_passes check path data ps :
  passes (each_property check path data ps)
  = forallb (fun '(k, sub) =>
               negb (present data k)
               || passes (check sub (path ++ [k]) (opt_get data k))) ps.
Proof.
  induction ps as [|[k sub] ps IH]; simpl; [done|].
  destruct (present data k); simpl; [|done].
  by destruct (check sub _ _).
Qed.

Lemma validate_passes ty ps required path data :
  passes (validate (Sch ty ps required) path data)
  = existsb (has_type data) ty
    && (negb (is_object data)
        || forallb (present data) required
           && forallb (fun '(k, sub) =>
                         negb (present data k)
                         || passes (validate sub (path ++ [k])
                                             (opt_get data k))) ps).
Proof.
  change (validate (Sch ty ps required) path data)
    with (if negb (existsb (has_type data) ty) then Some (WrongType path ty)
          else if is_object data then
            match first_missing required data with
            | Some k => Some (MissingProperty path k)
            | None => each_property validate path data ps
            end
          else None).
  destruct (existsb (has_type data) ty); simpl; [|done].
  destruct (is_object data); simpl; [|done].
  rewrite <- first_missing_passes, <- each_property_passes.
  by destruct (first_missing required data).
Qed.

Lemma optional_string path data k :
  negb (present data k) || passes (validate string_schema path (opt_get data k))
  = optional is_string (opt_get data k).
Proof. unfold present. by destruct (opt_get data k). Qed.

Lemma optional_number path data k :
  negb (present data k) || passes (validate number_schema path (opt_get data k))
  = optional is_finite_number (opt_get data k).
Proof.
  unfold present. destruct (opt_get data k) as [| |b|x|s|l|fs]; try done.
  by destruct x.
Qed.

Lemma optional_seed path data k :
  negb (present data k)
  || passes (validate (Sch [TNumber; TNull] [] []) path (opt_get data k))
  = optional (fun v => is_finite_number v || is_null v) (opt_get data k).
Proof.
  unfold present. destruct (opt_get data k) as [| |b|x|s|l|fs]; try done.
  by destruct x.
Qed.

Lemma required_string data k :
  present data k && optional is_string (opt_get data k)
  = is_string (opt_get data k).
Proof. unfold present. by destruct (opt_get data k). Qed.

Lemma has_type_object v : existsb (has_type v) [TObject] = is_object v.
Proof. by destruct v. Qed.

Lemma details_passes path v :
  passes (validate details_schema path v) = conforms_details v.
Proof.
  unfold details_schema, conforms_details.
  rewrite validate_passes, has_type_object. cbn [forallb].
  rewrite !optional_string, !andb_true_r.
  destruct (is_object v); simpl; [|done].
  by rewrite andb_assoc, required_string, !andb_assoc.
Qed.

Lemma params_passes path v :
  passes (validate params_schema path v) = conforms_params v.
Proof.
  unfold params_schema, conforms_params.
  rewrite validate_passes, has_type_object. cbn [forallb].
  rewrite !optional_string, !optional_number, optional_seed, !andb_true_r.
  destruct (is_object v); simpl; [|done].
  by rewrite !andb_assoc.
Qed.

Lemma validateJSON_passes o :
  validateJSON o = passes (validateJSON_errors o).
Proof. done. Qed.

Lemma conforms_iff o : validateJSON o = conforms o.
Proof.
  rewrite validateJSON_passes. unfold validateJSON_errors, jsonSchema, conforms.
  rewrite validate_passes, has_type_object. cbn [forallb].
  rewrite !optional_string, details_passes, params_passes, !andb_true_r.
  destruct (is_object o) eqn:Ho; simpl; [|done].
  assert (Hdet : negb (present o (str "details"))
                 || conforms_details (opt_get o (str "details"))
                 = optional conforms_details (opt_get o (str "details"))).
  { unfold present. by destruct (opt_get o (str "details")). }
  assert (Hpar : present o (str "params")
                 && (negb (present o (str "params"))
                     || conforms_params (opt_get o (str "params")))
                 = conforms_params (opt_get o (str "params"))).
  { unfold present. by destruct (opt_get o (str "params")). }
  rewrite Hdet.
  destruct (present o (str "prompt")) eqn:Hp,
           (opt_get o (str "prompt")) as [| |b|x|s|l|fs] eqn:Hv;
    try (unfold present in Hp; rewrite Hv in Hp; discriminate);
    simpl; try done; try (by rewrite andb_false_r).
  destruct (present o (str "params")); simpl in *.
  - by rewrite !andb_assoc.
  - rewrite <- Hpar. by rewrite !andb_false_r.
Qed.

(** X6.  The validator accepts exactly the values of the shape the schema
    describes: an object with a string [prompt]; with [negative_prompt],
    [style], [lighting] and [camera] absent or strings; with [details]
    absent or an object with a string [subject] and with [background],
    [mood] and [colors] absent or strings; and with an object [params]
    whose [engine], [resolution] and [sampler] are absent or strings, whose
    [cfg_scale] and [steps] are absent or finite numbers of any size, and
    whose [seed] is absent, a finite number or null.  Properties that the
    schema does not name are not looked at. *)
Theorem validateJSON_conforms (o : value) :
  validateJSON o = conforms o
  /\ (validateJSON_errors o = None <-> conforms o = true).
Proof.
  split; [apply conforms_iff|].
  rewrite <- conforms_iff, validateJSON_passes.
  by destruct (validateJSON_errors o).
Qed.

Lemma present_ext d d' k :
  opt_get d k = opt_get d' k -> present d k = present d' k.
Proof. unfold present. by intros ->. Qed.

(** The validator reads an object through the properties its schema names,
    and through nothing else. *)
Lemma validate_object_ext ps required path fs fs' :
  (forall k, In k required \/ In k (map fst ps) ->
             lookup_field k fs = lookup_field k fs') ->
  validate (Sch [TObject] ps required) path (VObject fs)
  = validate (Sch [TObject] ps required) path (VObject fs').
Proof.
  intros Hsame. rewrite !validate_object.
  assert (Hget : forall k, In k required \/ In k (map fst ps) ->
            opt_get (VObject fs) k = opt_get (VObject fs') k).
  { intros k Hk. unfold opt_get, get. by rewrite (Hsame k Hk). }
  assert (Hreq : first_missing required (VObject fs)
                 = first_missing required (VObject fs')).
  { unfold first_missing.
    assert (Hr : forall k, In k required ->
              opt_get (VObject fs) k = opt_get (VObject fs') k)
      by (intros k Hk; apply Hget; by left).
    clear -Hr. induction required as [|k required IH]; simpl; [done|].
    rewrite (present_ext _ _ _ (Hr k ltac:(by left))).
    rewrite IH; [done|]. intros k' Hk'. apply Hr. by right. }
  rewrite Hreq. destruct (first_missing required (VObject fs')); [done|].
  assert (Hp : forall k, In k (map fst ps) ->
            opt_get (VObject fs) k = opt_get (VObject fs') k)
    by (intros k Hk; apply Hget; by right).
  clear -Hp. induction ps as [|[k sub] ps IH]; simpl; [done|].
  rewrite (present_ext _ _ _ (Hp k ltac:(by left))), (Hp k ltac:(by left)).
  rewrite IH; [done|]. intros k' Hk'. apply Hp. by right.
Qed.

Lemma validateJSON_conforms_witness :
  let spec :=
    VObject [(str "prompt", VString (str "a fox"));
             (str "details", VObject [(str "subject", VString (str "fox"))]);
             (str "params",
               VObject [(str "steps", VNumber (S754_finite false 1000000 0));
                        (str "seed", VNull)]);
             (str "note", VBool true)] in
  conforms spec = true /\ validateJSON_errors spec = None.
Proof.
  intros spec. split; [reflexivity|].
  apply (proj2 (proj2 (validateJSON_conforms spec))). reflexivity.
Defined.

End SchemaFacts.

(* ===================================================================== *)
(** * Properties of the handler *)
(* ===================================================================== *)

Module PipelineFacts.
Import JS Scanner Sanitizer Schema Pipeline ImageSpec.
Import ScannerFacts SanitizerFacts SchemaFacts.

(** ** Assignment to a property *)

Lemma lookup_assign_eq k v fs :
  lookup_field k (assign_field k v fs) = Some v.
Proof.
  induction fs as [|[k' v'] fs IH]; simpl.
  - by rewrite decide_True.
  - destruct (decide (k' = k)); simpl.
    + by rewrite decide_True.
    + by rewrite decide_False.
Qed.

Lemma lookup_assign_ne k k' v fs :
  k <> k' -> lookup_field k' (assign_field k v fs) = lookup_field k' fs.
Proof.
  intros Hne. induction fs as [|[k0 v0] fs IH]; simpl.
  - by rewrite decide_False.
  - destruct (decide (k0 = k)) as [->|]; simpl.
    + by rewrite !decide_False.
    + by rewrite IH.
Qed.

Lemma enforce_Some (outputObj E result : value) :
  enforce outputObj E = Some result ->
  exists fs ps,
    outputObj = VObject fs
    /\ lookup_field (str "params") fs = Some (VObject ps)
    /\ result = VObject (assign_field (str "params")
                           (VObject (assign_field (str "engine") E ps)) fs).
Proof.
  unfold enforce. destruct outputObj as [| |b|x|s|l|fs]; try done.
  destruct (lookup_field (str "params") fs) as [[| |b|x|s|l|ps]|] eqn:Hp;
    try done.
  intros [= <-]. by exists fs, ps.
Qed.

Lemma enforce_engine (outputObj E result : value) :
  enforce outputObj E = Some result ->
  exists ps, get result (str "params") = Some (VObject ps)
             /\ get (VObject ps) (str "engine") = Some E.
Proof.
  intros H. destruct (enforce_Some _ _ _ H) as (fs & ps & -> & Hp & ->).
  exists (assign_field (str "engine") E ps). unfold get.
  by rewrite !lookup_assign_eq.
Qed.

(** C2.  On a validated object the enforcement step succeeds, and in what
    it returns [params.engine] is the accepted preference [E], whatever the
    object held there; every other property of the object and of its
    [params] is as it was. *)
Theorem enforce_sets_engine (outputObj E : value) :
  validateJSON outputObj = true ->
  exists result params,
    enforce outputObj E = Some result
    /\ get result (str "params") = Some params
    /\ get params (str "engine") = Some E
    /\ (forall k, k <> str "params" -> get result k = get outputObj k)
    /\ (forall k old, k <> str "engine" ->
          get outputObj (str "params") = Some old -> get params k = get old k).
Proof.
  intros Hvalid. destruct (valid_shape_params _ Hvalid) as (fs & ps & -> & Hp).
  exists (VObject (assign_field (str "params")
                     (VObject (assign_field (str "engine") E ps)) fs)),
         (VObject (assign_field (str "engine") E ps)).
  unfold enforce, get. rewrite Hp, !lookup_assign_eq. simpl.
  repeat split.
  - intros k Hk. by rewrite lookup_assign_ne.
  - intros k old Hk [= <-]. by rewrite lookup_assign_ne.
Qed.

Lemma enforce_sets_engine_witness :
  let model_output :=
    VObject [(str "prompt", VString (str "red fox in snow"));
             (str "params",
               VObject [(str "engine", VString (str "midjourney"));
                        (str "steps", VNumber (S754_finite false 30 0))])] in
  validateJSON model_output = true
  /\ exists result params,
       enforce model_output (VString (str "stable")) = Some result
       /\ get result (str "params") = Some params
       /\ get params (str "engine") = Some (VString (str "stable")).
Proof.
  intros model_output. split; [reflexivity|].
  destruct (enforce_sets_engine model_output (VString (str "stable")) eq_refl)
    as (result & params & H1 & H2 & H3 & _).
  by exists result, params.
Defined.

(** ** Enforcement and the schema *)

Ltac neq_str :=
  let H := fresh in intros H; vm_compute in H; discriminate H.

Lemma assign_assign k v v' fs :
  assign_field k v' (assign_field k v fs) = assign_field k v' fs.
Proof.
  induction fs as [|[k0 v0] fs IH]; simpl.
  - by rewrite decide_True.
  - destruct (decide (k0 = k)) as [->|Hne]; simpl.
    + by rewrite decide_True.
    + by rewrite decide_False, IH.
Qed.

Lemma opt_get_assign_eq k v fs :
  opt_get (VObject (assign_field k v fs)) k = v.
Proof. unfold opt_get, get. by rewrite lookup_assign_eq. Qed.

Lemma opt_get_assign_ne k k' v fs :
  k <> k' ->
  opt_get (VObject (assign_field k v fs)) k' = opt_get (VObject fs) k'.
Proof. intros Hne. unfold opt_get, get. by rewrite lookup_assign_ne. Qed.

(** X7.  Properties that the schema does not name do not count: setting
    one at the top of an object, to any value, changes neither whether the
    object is valid nor the violation reported. *)
Theorem validate_ignores_unknown (k : jsstring) (v : value)
  (fs : list (jsstring * value)) :
  ~ In k top_level_names ->
  validateJSON_errors (VObject (assign_field k v fs))
  = validateJSON_errors (VObject fs)
  /\ validateJSON (VObject (assign_field k v fs)) = validateJSON (VObject fs).
Proof.
  intros Hk.
  assert (H : validateJSON_errors (VObject (assign_field k v fs))
              = validateJSON_errors (VObject fs)).
  { unfold validateJSON_errors, jsonSchema. apply validate_object_ext.
    intros k' Hk'. apply lookup_assign_ne. intros ->. apply Hk.
    unfold top_level_names. cbn [In map fst] in *. tauto. }
  split; [done|]. unfold validateJSON. by rewrite H.
Qed.

(** X8.  Enforcing twice is enforcing once with the later preference: the
    second override replaces the first and leaves the rest as the first
    left it; with the same preference it changes nothing. *)
Theorem enforce_last_wins (outputObj E result : value) :
  enforce outputObj E = Some result ->
  (forall E', enforce result E' = enforce outputObj E')
  /\ enforce result E = Some result.
Proof.
  intros H. destruct (enforce_Some _ _ _ H) as (fs & ps & -> & Hp & ->).
  assert (Hlast : forall E',
            enforce (VObject (assign_field (str "params")
                       (VObject (assign_field (str "engine") E ps)) fs)) E'
            = enforce (VObject fs) E').
  { intros E'. unfold enforce.
    by rewrite lookup_assign_eq, Hp, !assign_assign. }
  split; [done|]. by rewrite Hlast.
Qed.

Lemma enforce_conforms (outputObj E result : value) :
  conforms outputObj = true ->
  enforce outputObj E = Some result ->
  conforms result = optional is_string E.
Proof.
  intros Hc H. destruct (enforce_Some _ _ _ H) as (fs & ps & -> & Hp & ->).
  assert (Hparams : opt_get (VObject fs) (str "params") = VObject ps)
    by (unfold opt_get, get; by rewrite Hp).
  unfold conforms in *. rewrite Hparams in Hc.
  rewrite opt_get_assign_eq.
  rewrite !opt_get_assign_ne by neq_str.
  repeat (apply andb_prop in Hc as [Hc ?]).
  repeat match goal with Hx : _ = true |- _ => rewrite Hx; clear Hx end.
  match goal with Hx : conforms_params _ = true |- _ => rename Hx into Hps end.
  unfold conforms_params in *.
  rewrite opt_get_assign_eq.
  rewrite !opt_get_assign_ne by neq_str.
  repeat (apply andb_prop in Hps as [Hps ?]).
  repeat match goal with Hx : _ = true |- _ => rewrite Hx; clear Hx end.
  simpl. by rewrite !andb_true_r.
Qed.

(** X9.  What enforcement makes of a valid object is valid again exactly
    when the preference written into it is a string (or [undefined], which
    the handler never writes). *)
Theorem enforce_keeps_valid_iff_string (outputObj E result : value) :
  validateJSON outputObj = true ->
  enforce outputObj E = Some result ->
  validateJSON result = optional is_string E.
Proof.
  intros Hv H. rewrite conforms_iff in *. by eapply enforce_conforms.
Qed.

(** ** The handler *)

Section HandlerFacts.

Context (JSON_parse : jsstring -> option value).
Context (Number_toString : spec_float -> jsstring).

Local Abbreviation on_response := (on_response JSON_parse Number_toString).
Local Abbreviation convert := (convert JSON_parse Number_toString).

(** The one way to a successful response. *)
Lemma on_response_Ok (E : value) (r : fetch_result) st result :
  on_response E r = {| status := st; body := Ok result |} ->
  exists outputObj, validateJSON outputObj = true
                    /\ enforce outputObj E = Some result.
Proof.
  unfold Pipeline.on_response, server_error.
  destruct r as [|[|] txt [data|]]; try done; try (by destruct txt).
  destruct (negb (truthy _)); [done|].
  destruct (extract _) as [|cand]; [done|].
  destruct (negb (truthy cand)); [done|].
  destruct (_ ≫= JSON_parse) as [o|]; [|done].
  destruct (validateJSON o) eqn:Hv; simpl; [|done].
  destruct (enforce o E) as [res|] eqn:He; [|done].
  intros [= _ <-]. eauto.
Qed.

Lemma convert_Ok (e : env) (body : value) provider st result calls :
  run provider (convert e body) = ({| status := st; body := Ok result |}, calls) ->
  exists outputObj, validateJSON outputObj = true
                    /\ enforce outputObj (enginePref body) = Some result.
Proof.
  unfold Pipeline.convert, server_error.
  destruct (get body (str "prompt")) as [raw|]; [|done].
  destruct (negb (truthy (VString _))); [done|].
  destruct (userMsg _ _ _) as [msg|]; [|done].
  destruct (negb (truthy (OPENAI_KEY e))); [done|].
  destruct (ToString _ (OPENAI_KEY e)) as [key|]; [|done].
  simpl. intros [= H _]. by apply on_response_Ok in H.
Qed.

(** C7.  A request whose sanitized prompt is empty is answered at once with
    status 400 and the error [Empty prompt]; no call to the provider is
    made; and this is so whatever the configuration, also without any
    provider key. *)
Theorem empty_prompt_fails_first (e : env) (body userPromptRaw : value)
  (provider : fetch_request -> fetch_result) :
  get body (str "prompt") = Some userPromptRaw ->
  sanitizeInput userPromptRaw = [] ->
  convert e body = Ret empty_prompt
  /\ run provider (convert e body) = (empty_prompt, [])
  /\ convert {| BACKEND_OPENAI_KEY := None; OPENAI_API_KEY := None |} body
     = Ret empty_prompt.
Proof.
  intros Hraw Hempty. unfold Pipeline.convert. rewrite Hraw, Hempty. done.
Qed.

(** C9.  An object with a [prompt] and an empty [params] passes validation;
    enforcement turns it into one whose [params] holds [engine] and nothing
    else; and when the provider's text holds such an object, the handler
    answers with it. *)
Theorem params_may_be_empty (p : jsstring) (E : value) :
  let outputObj :=
    VObject [(str "prompt", VString p); (str "params", VObject [])] in
  let result :=
    VObject [(str "prompt", VString p);
             (str "params", VObject [(str "engine", E)])] in
  validateJSON outputObj = true
  /\ validateJSON_errors outputObj = None
  /\ enforce outputObj E = Some result
  /\ forall ok_text data text candidate,
       rawText data = VString text ->
       extractJSON_string text = Some candidate ->
       JSON_parse candidate = Some outputObj ->
       on_response E (Response true ok_text (Some data))
       = {| status := 200; body := Ok result |}.
Proof.
  intros outputObj result.
  split; [reflexivity|]. split; [reflexivity|]. split; [reflexivity|].
  intros ok_text data text candidate Hraw Hext Hparse.
  pose proof (extractJSON_nonempty _ _ _ Hext) as Hne.
  unfold Pipeline.on_response. rewrite Hraw.
  destruct text as [|c text]; [done|]. cbn [truthy negb].
  unfold extract. unfold extractJSON_string in Hext. rewrite Hext.
  destruct candidate as [|c' candidate]; [done|].
  cbn [truthy negb ToString mbind option_bind].
  rewrite Hparse. done.
Qed.

(** C10.  When the body of the request gives no [engine], or a falsy one,
    the accepted preference is ["stable"], and every successful response
    carries a result whose [params.engine] is ["stable"]. *)
Theorem engine_defaults_to_stable (e : env) (body : value)
  (provider : fetch_request -> fetch_result) :
  truthy (opt_get body (str "engine")) = false ->
  enginePref body = VString (str "stable")
  /\ forall st result calls,
       run provider (convert e body)
       = ({| status := st; body := Ok result |}, calls) ->
       exists ps, get result (str "params") = Some (VObject ps)
                  /\ get (VObject ps) (str "engine")
                     = Some (VString (str "stable")).
Proof.
  intros Hfalsy.
  assert (Hpref : enginePref body = VString (str "stable"))
    by (unfold enginePref, js_or; by rewrite Hfalsy).
  split; [done|]. intros st result calls Hrun.
  destruct (convert_Ok _ _ _ _ _ _ Hrun) as (o & _ & Henf).
  rewrite Hpref in Henf. by apply enforce_engine in Henf.
Qed.

(** ** Outcomes *)

Lemma enginePref_defined (body : value) :
  enginePref body <> VUndefined.
Proof.
  unfold enginePref, js_or.
  destruct (opt_get body (str "engine")) as [| |b|x|s|l|fs]; simpl; try done.
  - by destruct b.
  - by destruct x.
  - by destruct s.
Qed.

(** X10.  The result of a successful response satisfies the schema exactly
    when the engine preference of the request is a string; a request whose
    [engine] is a number, [true], an array or an object gets back a result
    that the handler's own validator would reject. *)
Theorem success_valid_iff_string_engine (e : env) (body : value)
  (provider : fetch_request -> fetch_result) (st : Z) (result : value)
  (calls : list fetch_request) :
  run provider (convert e body)
  = ({| status := st; body := Ok result |}, calls) ->
  validateJSON result = is_string (enginePref body).
Proof.
  intros Hrun. destruct (convert_Ok _ _ _ _ _ _ Hrun) as (o & Hv & Henf).
  rewrite conforms_iff in *.
  rewrite (enforce_conforms _ _ _ Hv Henf).
  pose proof (enginePref_defined body).
  by destruct (enginePref body).
Qed.

Lemma on_response_cases (E : value) (r : fetch_result) :
  (status (on_response E r) = 200
   /\ is_ok (body (on_response E r)) = true)
  \/ on_response E r = server_error
  \/ (status (on_response E r) = 502
      /\ is_ok (body (on_response E r)) = false).
Proof.
  unfold Pipeline.on_response.
  destruct r as [|[|] [txt|] [data|]]; simpl; auto;
    repeat case_match; simpl; auto.
Qed.

(** X11.  Every request is answered with status 200, 400, 500 or 502 after
    at most one call to the provider.  The status is 200 exactly when the
    body is [{ ok: true, result }]; 400 is the empty-prompt answer, given
    before any call; 500 is the generic server error or, before any call,
    the missing-key answer, and says nothing else; 200 and 502 are given
    after exactly one call. *)
Theorem response_taxonomy (e : env) (body : value)
  (provider : fetch_request -> fetch_result) :
  let resp := (run provider (convert e body)).1 in
  let calls := (run provider (convert e body)).2 in
  (status resp = 200 \/ status resp = 400
   \/ status resp = 500 \/ status resp = 502)
  /\ (status resp = 200 <-> is_ok (Pipeline.body resp) = true)
  /\ (status resp = 400 -> resp = empty_prompt /\ calls = [])
  /\ (status resp = 500 ->
        resp = server_error \/ (resp = misconfigured /\ calls = []))
  /\ (status resp = 200 \/ status resp = 502 -> exists rq, calls = [rq])
  /\ (length calls <= 1)%nat.
Proof.
  unfold Pipeline.convert.
  destruct (get body (str "prompt")) as [raw|];
    [|simpl; repeat split; intros; try done; try lia; auto; intuition lia].
  destruct (negb (truthy (VString _)));
    [simpl; repeat split; intros; try done; try lia; auto; intuition lia|].
  destruct (userMsg _ _ _) as [msg|];
    [|simpl; repeat split; intros; try done; try lia; auto; intuition lia].
  destruct (negb (truthy (OPENAI_KEY e)));
    [simpl; repeat split; intros; try done; try lia; auto; intuition lia|].
  destruct (ToString _ (OPENAI_KEY e)) as [key|];
    [|simpl; repeat split; intros; try done; try lia; auto; intuition lia].
  cbn [run]. cbn zeta.
  set (rq := provider_request _ _).
  set (resp := on_response (enginePref body) (provider rq)).
  cbn [fst snd length].
  destruct (on_response_cases (enginePref body) (provider rq))
    as [[Hs Hok]|[Herr|[Hs Hok]]]; fold resp in Hs, Hok || fold resp in Herr.
  - rewrite Hs, Hok. repeat split; intros; try done; try lia; eauto.
  - rewrite Herr. simpl. repeat split; intros; try done; try lia; eauto;
      intuition lia.
  - rewrite Hs, Hok. repeat split; intros; try done; try lia; eauto.
Qed.

(** X12.  The empty-prompt answer is given exactly when the body of the
    request can be read and its [prompt] is no string (absent, a number, an
    array, ...) or a string of whitespace only. *)
Theorem empty_prompt_iff (e : env) (body : value)
  (provider : fetch_request -> fetch_result) :
  (run provider (convert e body)).1 = empty_prompt <->
  exists p, get body (str "prompt") = Some p
            /\ (typeof p <> TyString
                \/ exists s, p = VString s /\ all_whitespace s).
Proof.
  unfold Pipeline.convert.
  destruct (get body (str "prompt")) as [raw|]; simpl.
  - destruct (sanitizeInput raw) as [|c t] eqn:Hs; simpl.
    + split; [|done]. intros _. exists raw. split; [done|].
      by apply sanitizeInput_nil_iff.
    + split.
      * destruct (userMsg _ _ _) as [msg|]; simpl; [|done].
        destruct (negb (truthy (OPENAI_KEY e))); simpl; [done|].
        destruct (ToString _ (OPENAI_KEY e)) as [key|]; simpl; [|done].
        intros H.
        destruct (on_response_cases (enginePref body)
                    (provider (provider_request key msg)))
          as [[Hst _]|[Herr|[Hst _]]];
          rewrite H in *; done.
      * intros (p & [= <-] & Hp). apply sanitizeInput_nil_iff in Hp.
        congruence.
  - split; [done|]. by intros (p & Hp & _).
Qed.

Lemma OPENAI_KEY_effective (e : env) :
  match effective_key e with
  | Some k => OPENAI_KEY e = VString k /\ truthy (OPENAI_KEY e) = true
  | None => truthy (OPENAI_KEY e) = false
  end.
Proof.
  unfold effective_key, OPENAI_KEY, js_or.
  destruct e as [[[|c k]|] [[|c' k']|]]; simpl; auto.
Qed.

(** X13.  With a prompt that is not empty, the handler first writes the
    engine preference into the user message.  When that conversion throws,
    as for an engine that is an object with a property [toString] of its
    own, the answer is the generic server error and nobody is called,
    whatever the keys.  When it succeeds, as for every string, and neither
    key of the environment is set to a non-empty string, the answer is the
    missing-key error and nobody is called; otherwise the provider is
    called once, with [BACKEND_OPENAI_KEY] as bearer token if that is set
    and not empty and with [OPENAI_API_KEY] if not, and with the sanitized
    prompt, not the raw one, in the user message. *)
Theorem provider_key_selection (e : env) (body p : value)
  (provider : fetch_request -> fetch_result) :
  get body (str "prompt") = Some p ->
  sanitizeInput p <> [] ->
  (ToString Number_toString (enginePref body) = None ->
     run provider (convert e body) = (server_error, []))
  /\ (forall fs v, enginePref body = VObject fs ->
        lookup_field (str "toString") fs = Some v ->
        run provider (convert e body) = (server_error, []))
  /\ (forall s, enginePref body = VString s ->
        ToString Number_toString (enginePref body) = Some s)
  /\ (forall msg,
        userMsg Number_toString (sanitizeInput p) (enginePref body)
        = Some msg ->
        (effective_key e = None ->
           run provider (convert e body) = (misconfigured, []))
        /\ (forall k, effective_key e = Some k ->
              (run provider (convert e body)).2 = [provider_request k msg]
              /\ authorization (provider_request k msg)
                 = str "Bearer " ++ k
              /\ messages (provider_request k msg)
                 = [ {| role := str "system"; content := SYSTEM_PROMPT |};
                     {| role := str "user"; content := msg |} ])).
Proof.
  intros Hp Hne.
  assert (Hthrow : ToString Number_toString (enginePref body) = None ->
            run provider (convert e body) = (server_error, [])).
  { intros Hnone. unfold Pipeline.convert. rewrite Hp.
    destruct (sanitizeInput p) as [|c t] eqn:Hs; [done|]. cbn [truthy negb].
    unfold userMsg. by rewrite Hnone. }
  split; [done|]. split; [|split].
  - intros fs v Hobj Hown. apply Hthrow. rewrite Hobj. simpl.
    by rewrite Hown.
  - by intros s ->.
  - intros msg Hmsg. unfold Pipeline.convert. rewrite Hp.
    destruct (sanitizeInput p) as [|c t] eqn:Hs; [done|]. cbn [truthy negb].
    rewrite Hmsg.
    pose proof (OPENAI_KEY_effective e) as Hkey.
    split.
    + intros Hnone. rewrite Hnone in Hkey. by rewrite Hkey.
    + intros k Hk. rewrite Hk in Hkey. destruct Hkey as [Hkey Htr].
      rewrite Htr, Hkey. done.
Qed.

(** X14.  When the provider's content is a string, the handler answers
    "AI did not return JSON", with the whole content as [raw], exactly when
    the content is not empty and the scanner finds no object in it; so it
    does for every non-empty content without opening brace. *)
Theorem no_json_iff (E : value) (ok_text : option jsstring) (data : value)
  (t : jsstring) :
  rawText data = VString t ->
  (on_response E (Response true ok_text (Some data)) = no_json (VString t)
   <-> t <> [] /\ extractJSON_string t = None)
  /\ (t <> [] -> has_no Some LBRACE t = true ->
      on_response E (Response true ok_text (Some data)) = no_json (VString t)).
Proof.
  intros Hraw.
  assert (Hiff : on_response E (Response true ok_text (Some data))
                 = no_json (VString t)
                 <-> t <> [] /\ extractJSON_string t = None).
  { unfold Pipeline.on_response, no_json, server_error. rewrite Hraw.
    destruct t as [|c t]; cbn [truthy negb]; [split; [done|by intros [? _]]|].
    unfold extract, extractJSON_string.
    destruct (extractJSON Some (c :: t)) as [cand|] eqn:He.
    - pose proof (extractJSON_nonempty _ _ _ He) as Hne.
      destruct cand as [|c' cand]; [done|]. cbn [truthy negb ToString].
      split; [|by intros [_ ?]]. intros H. exfalso. revert H.
      repeat case_match; intros [= Heq]; try done;
        vm_compute in Heq; discriminate Heq.
    - cbn [truthy negb]. done. }
  split; [done|]. intros Hne Hno. apply Hiff. split; [done|].
  unfold extractJSON_string, extractJSON.
  by rewrite (proj2 (indexOf_None _ _ _) Hno).
Qed.

End HandlerFacts.

(** ** The scenario, run *)

Import Scenario.

Example end_to_end :
  run fox_provider (convert parse number_toString fox_env fox_body)
  = ({| status := 200; body := Ok (fox_parsed (str "stable")) |},
     [fox_request (str "sk-test") (str "stable")]).
Proof. vm_compute. reflexivity. Qed.

Example end_to_end_bare :
  run (fun _ => Response true None (Some (completion bare_candidate)))
      (convert parse number_toString fox_env fox_body)
  = ({| status := 200;
        body := Ok (VObject [(str "prompt", VString (str "x"));
                             (str "params",
                               VObject [(str "engine",
                                          VString (str "stable"))])]) |},
     [fox_request (str "sk-test") (str "stable")]).
Proof. vm_compute. reflexivity. Qed.

Lemma empty_prompt_fails_first_witness :
  let body := VObject [(str "prompt", VString (str "   "));
                       (str "engine", VString (str "dalle"))] in
  get body (str "prompt") = Some (VString (str "   "))
  /\ sanitizeInput (VString (str "   ")) = []
  /\ run fox_provider
         (convert parse number_toString
            {| BACKEND_OPENAI_KEY := None; OPENAI_API_KEY := None |} body)
     = (empty_prompt, []).
Proof.
  intros body. split; [reflexivity|]. split; [reflexivity|].
  apply (empty_prompt_fails_first parse number_toString _ body
           (VString (str "   ")) fox_provider);
    reflexivity.
Defined.

Lemma params_may_be_empty_witness :
  let data := completion (str "Sure: " ++ bare_candidate) in
  rawText data = VString (str "Sure: " ++ bare_candidate)
  /\ extractJSON_string (str "Sure: " ++ bare_candidate) = Some bare_candidate
  /\ parse bare_candidate = Some bare_parsed
  /\ on_response parse number_toString (VString (str "stable"))
       (Response true None (Some data))
     = {| status := 200;
          body := Ok (VObject [(str "prompt", VString (str "x"));
                               (str "params",
                                 VObject [(str "engine",
                                            VString (str "stable"))])]) |}.
Proof.
  intros data. split; [reflexivity|]. split; [reflexivity|].
  split; [reflexivity|].
  apply (proj2 (proj2 (proj2 (params_may_be_empty parse number_toString
                                (str "x") (VString (str "stable")))))
           None data (str "Sure: " ++ bare_candidate) bare_candidate);
    reflexivity.
Defined.

Lemma engine_defaults_to_stable_witness :
  truthy (opt_get fox_body (str "engine")) = false
  /\ enginePref fox_body = VString (str "stable")
  /\ exists ps,
       get (fox_parsed (str "stable")) (str "params") = Some (VObject ps)
       /\ get (VObject ps) (str "engine") = Some (VString (str "stable")).
Proof.
  split; [reflexivity|].
  destruct (engine_defaults_to_stable parse number_toString fox_env fox_body
              fox_provider eq_refl) as [Hpref Hrun].
  split; [exact Hpref|].
  apply (Hrun 200 (fox_parsed (str "stable"))
           [fox_request (str "sk-test") (str "stable")]).
  vm_compute. reflexivity.
Defined.

Lemma validate_ignores_unknown_witness :
  let fs := [(str "prompt", VString (str "a fox")); (str "params", VObject [])] in
  ~ In (str "note") top_level_names
  /\ validateJSON (VObject (assign_field (str "note") (VBool true) fs))
     = validateJSON (VObject fs).
Proof.
  intros fs.
  assert (H : ~ In (str "note") top_level_names)
    by (vm_compute; intuition discriminate).
  split; [exact H|].
  apply (proj2 (validate_ignores_unknown (str "note") (VBool true) fs H)).
Defined.

Lemma enforce_last_wins_witness :
  enforce bare_parsed (VString (str "dalle"))
  = Some (VObject [(str "prompt", VString (str "x"));
                   (str "params",
                     VObject [(str "engine", VString (str "dalle"))])])
  /\ enforce (VObject [(str "prompt", VString (str "x"));
                       (str "params",
                         VObject [(str "engine", VString (str "dalle"))])])
             (VString (str "stable"))
     = enforce bare_parsed (VString (str "stable")).
Proof.
  split; [reflexivity|].
  apply (proj1 (enforce_last_wins bare_parsed (VString (str "dalle")) _
                  eq_refl)).
Defined.

Lemma enforce_keeps_valid_iff_string_witness :
  validateJSON bare_parsed = true
  /\ enforce bare_parsed (VNumber (S754_finite false 5 0))
     = Some (VObject [(str "prompt", VString (str "x"));
                      (str "params",
                        VObject [(str "engine",
                                   VNumber (S754_finite false 5 0))])])
  /\ validateJSON
       (VObject [(str "prompt", VString (str "x"));
                 (str "params",
                   VObject [(str "engine", VNumber (S754_finite false 5 0))])])
     = false.
Proof.
  split; [reflexivity|]. split; [reflexivity|].
  apply (enforce_keeps_valid_iff_string bare_parsed
           (VNumber (S754_finite false 5 0)) _ eq_refl eq_refl).
Defined.

Lemma success_valid_iff_string_engine_witness :
  let body := VObject [(str "prompt", VString (str "a red fox in snow"));
                       (str "engine", VBool true)] in
  run fox_provider (convert parse number_toString fox_env body)
  = ({| status := 200; body := Ok (fox_parsed_with (VBool true)) |},
     [fox_request (str "sk-test") (str "true")])
  /\ validateJSON (fox_parsed_with (VBool true)) = false.
Proof.
  intros body.
  assert (H : run fox_provider (convert parse number_toString fox_env body)
              = ({| status := 200; body := Ok (fox_parsed_with (VBool true)) |},
                 [fox_request (str "sk-test") (str "true")]))
    by (vm_compute; reflexivity).
  split; [exact H|].
  apply (success_valid_iff_string_engine parse number_toString fox_env body
           fox_provider _ _ _ H).
Defined.

Lemma provider_key_selection_witness :
  let e := {| BACKEND_OPENAI_KEY := Some []; OPENAI_API_KEY := Some (str "sk-b") |} in
  get fox_body (str "prompt") = Some (VString (str "a red fox in snow"))
  /\ sanitizeInput (VString (str "a red fox in snow")) <> []
  /\ userMsg number_toString (sanitizeInput (VString (str "a red fox in snow")))
             (enginePref fox_body)
     = Some (fox_user_message (str "stable"))
  /\ effective_key e = Some (str "sk-b")
  /\ (run fox_provider (convert parse number_toString e fox_body)).2
     = [fox_request (str "sk-b") (str "stable")].
Proof.
  intros e. split; [reflexivity|].
  assert (Hne : sanitizeInput (VString (str "a red fox in snow")) <> [])
    by (vm_compute; discriminate).
  split; [exact Hne|]. split; [reflexivity|]. split; [reflexivity|].
  apply (proj2 (proj2 (proj2 (proj2
           (provider_key_selection parse number_toString e fox_body
              _ fox_provider eq_refl Hne)))
           (fox_user_message (str "stable")) eq_refl) (str "sk-b") eq_refl).
Defined.

(** A request whose engine has a [toString] of its own is answered with the
    generic server error, before the key is looked at. *)
Example engine_conversion_throws :
  run fox_provider
      (convert parse number_toString
         {| BACKEND_OPENAI_KEY := None; OPENAI_API_KEY := None |} hostile_body)
  = (server_error, [])
  /\ run fox_provider (convert parse number_toString fox_env hostile_body)
     = (server_error, []).
Proof. split; reflexivity. Qed.

Lemma no_json_iff_witness :
  let t := str "I cannot help with that." in
  rawText (completion t) = VString t
  /\ t <> []
  /\ has_no Some LBRACE t = true
  /\ on_response parse number_toString (VString (str "stable"))
       (Response true None (Some (completion t)))
     = no_json (VString t).
Proof.
  intros t. split; [reflexivity|].
  assert (Hne : t <> []) by (vm_compute; discriminate).
  split; [exact Hne|]. split; [reflexivity|].
  apply (proj2 (no_json_iff parse number_toString (VString (str "stable"))
                  None (completion t) t eq_refl) Hne eq_refl).
Defined.

Lemma response_taxonomy_witness :
  status (run fox_provider (convert parse number_toString fox_env fox_body)).1
  = 200
  /\ exists rq,
       (run fox_provider (convert parse number_toString fox_env fox_body)).2
       = [rq].
Proof.
  assert (H : status (run fox_provider
                        (convert parse number_toString fox_env fox_body)).1
              = 200) by (vm_compute; reflexivity).
  split; [exact H|].
  apply (proj1 (proj2 (proj2 (proj2 (proj2
           (response_taxonomy parse number_toString fox_env fox_body
              fox_provider)))))).
  by left.
Defined.

Lemma empty_prompt_iff_witness :
  let body := VObject [(str "prompt", VNumber (S754_finite false 42 0))] in
  get body (str "prompt") = Some (VNumber (S754_finite false 42 0))
  /\ (run fox_provider (convert parse number_toString fox_env body)).1
     = empty_prompt.
Proof.
  intros body. split; [reflexivity|].
  apply (proj2 (empty_prompt_iff parse number_toString fox_env body
                  fox_provider)).
  exists (VNumber (S754_finite false 42 0)). split; [reflexivity|].
  left. discriminate.
Defined.

End PipelineFacts.
